(** * airport: booking workflow of the fly-port API

    A shallow embedding of [airport/models.py], [airport/serializers.py],
    [airport/views.py] and [airport/filters.py]: the booking workflow
    with its properties, then the validation of routes and flights and
    the searches.

    Conventions.
    - A Django table is the list of its rows, in insertion order.
    - A serializer's [data] dict with a fixed set of keys is a record of
      options: [None] is what [data.get(key)] returns for an absent key.
    - Code that raises returns [inl exn]; code that touches the database
      runs in the monad [db], a state monad over [Store] with exceptions. *)

From Stdlib Require Import ZArith DecimalString Lia.
From stdpp Require Import base option list strings gmap.

Local Open Scope Z_scope.

(** ** Exceptions *)

(** The payload of a [serializers.ValidationError]: a bare message ends
    up under [non_field_errors], a dict names its field, and a
    [ListSerializer] reports one entry per item. *)
#[warnings="-register-all"]
Inductive detail : Type :=
  | NonField (msg : string)
  | Field (name msg : string)
  | Items (errors : list (option detail))
  | Nested (name : string) (d : detail).

Inductive exn : Type :=
  | ValidationError (d : detail)
  | IntegrityError
  | TypeError
  | KeyError (key : string)
  | Http404.

Definition result (A : Type) : Type := exn + A.

Definition raise {A : Type} (e : exn) : result A := inl e.

Definition rbind {A B : Type} (m : result A) (k : A -> result B) : result B :=
  match m with
  | inl e => inl e
  | inr a => k a
  end.

Declare Scope result_scope.
Delimit Scope result_scope with result.
Notation "'try!' x := m 'in' k" := (rbind m (fun x => k))
  (at level 10, x name, m at level 100, k at level 200) : result_scope.
Local Open Scope result_scope.

(** ** Truth value testing *)

(** Python's [bool(x)], as used by [if x], [not x], [and] and [all]. *)
Class Truthy (A : Type) := truthy : A -> bool.

#[export] Instance int_truthy : Truthy Z := fun n => negb (n =? 0)%Z.
#[export] Instance list_truthy {A} : Truthy (list A) := fun l =>
  match l with [] => false | _ :: _ => true end.
#[export] Instance option_truthy {A} `{Truthy A} : Truthy (option A) := fun o =>
  match o with None => false | Some a => truthy a end.

(** [all(iterable)] on already computed truth values. *)
Definition all (l : list bool) : bool := forallb id l.

(** [str(n)] for an [int]. *)
Definition str (n : Z) : string := NilZero.string_of_int (Z.to_int n).

(** ** models.py *)

Record Airplane := {
  airplane_id : Z;
  rows : Z;
  seats_in_row : Z;
}.

(** A [Flight] instance with its [airplane] foreign key followed. *)
Record Flight := {
  flight_id : Z;
  airplane : Airplane;
}.

(** Model instances define no [__bool__] or [__len__]: always true. *)
#[export] Instance flight_truthy : Truthy Flight := fun _ => true.

Record User := {
  user_id : Z;
  is_staff : bool;
  is_authenticated : bool;
}.

Record Order := {
  order_id : Z;
  created_at : Z;
  order_user : Z;
}.

Record Ticket := {
  ticket_id : Z;
  ticket_row : Z;
  ticket_seat : Z;
  ticket_class : string;
  ticket_price : Z;
  ticket_flight : Z;
  ticket_order : Z;
}.

#[export] Instance Order_eq_dec : EqDecision Order.
Proof. solve_decision. Defined.

#[export] Instance Ticket_eq_dec : EqDecision Ticket.
Proof. solve_decision. Defined.

(** [Ticket.Meta.unique_together = ("row", "seat", "flight")]. *)
Definition seat_key (t : Ticket) : Z * Z * Z :=
  (ticket_row t, ticket_seat t, ticket_flight t).

(** The tables the booking workflow reads and writes, with the
    auto-increment counters of the two tables it inserts into. *)
Record Store := {
  flight_table : list Flight;
  order_table : list Order;
  ticket_table : list Ticket;
  next_order_id : Z;
  next_ticket_id : Z;
}.

(** [queryset.exists()] *)
Definition exists_ {A : Type} (queryset : list A) : bool :=
  match queryset with [] => false | _ :: _ => true end.

(** [Ticket.objects.filter(flight=flight, row=row, seat=seat)] *)
Definition Ticket_objects_filter (s : Store) (flight : Flight) (row seat : Z)
  : list Ticket :=
  filter (fun t => seat_key t = (row, seat, flight_id flight)) (ticket_table s).

(** ** serializers.py: TicketSerializer *)

(** The [data] dict of a [TicketSerializer]. *)
Record TicketData := {
  data_flight : option Flight;
  data_row : option Z;
  data_seat : option Z;
  data_ticket_class : option string;
  data_price : option Z;
}.

Definition seat_taken_msg : string :=
  "This seat is already taken for the selected flight.".

Definition not_provided_msg : string :=
  "Flight, row, and seat must be provided.".

Definition row_range_msg (a : Airplane) : string :=
  "Row number must be between 1 and " +:+ str (rows a) +:+ ".".

Definition seat_range_msg (a : Airplane) : string :=
  "Seat number must be between 1 and " +:+ str (seats_in_row a) +:+ ".".

(** [TicketSerializer.validate] *)
Definition TicketSerializer_validate (s : Store) (data : TicketData)
  : result TicketData :=
  let flight := data_flight data in
  let row := data_row data in
  let seat := data_seat data in
  if negb (all [truthy flight; truthy row; truthy seat]) then
    raise (ValidationError (NonField not_provided_msg))
  else
    match flight, row, seat with
    | Some flight, Some row, Some seat =>
        if exists_ (Ticket_objects_filter s flight row seat) then
          raise (ValidationError (Field "seat" seat_taken_msg))
        else
          let airplane := airplane flight in
          if (row <? 1) || (row >? rows airplane) then
            raise (ValidationError (NonField (row_range_msg airplane)))
          else if (seat <? 1) || (seat >? seats_in_row airplane) then
            raise (ValidationError (NonField (seat_range_msg airplane)))
          else
            inr data
    | _, _, _ =>
        (* not reached: the test above has rejected every [None] *)
        raise (ValidationError (NonField not_provided_msg))
    end.

(** ** The database monad *)

(** A computation that reads and writes the store and may raise; the
    store that comes with an exception is the one at the raise. *)
Definition db (A : Type) : Type := Store -> result A * Store.

Definition db_ret {A : Type} (a : A) : db A := fun s => (inr a, s).

Definition db_raise {A : Type} (e : exn) : db A := fun s => (inl e, s).

Definition db_bind {A B : Type} (m : db A) (k : A -> db B) : db B := fun s =>
  match m s with
  | (inl e, s') => (inl e, s')
  | (inr a, s') => k a s'
  end.

Declare Scope db_scope.
Delimit Scope db_scope with db.
Notation "'do!' x := m 'in' k" := (db_bind m (fun x => k))
  (at level 10, x name, m at level 100, k at level 200) : db_scope.
Local Open Scope db_scope.

(** [for x in l: body(x)] *)
Fixpoint for_each {A : Type} (body : A -> db unit) (l : list A) : db unit :=
  match l with
  | [] => db_ret tt
  | x :: l' => do! _ := body x in for_each body l'
  end.

(** [with transaction.atomic(): body]. When [body] raises, its writes
    are undone and the exception goes on to the caller. *)
Definition transaction_atomic {A : Type} (body : db A) : db A := fun s =>
  match body s with
  | (inl e, _) => (inl e, s)
  | (inr a, s') => (inr a, s')
  end.

(** [Order.objects.create(user=user)]; [created_at] is [auto_now_add]. *)
Definition Order_objects_create (now : Z) (user : User) : db Order := fun s =>
  let order := {| order_id := next_order_id s;
                  created_at := now;
                  order_user := user_id user |} in
  (inr order,
   {| flight_table := flight_table s;
      order_table := order_table s ++ [order];
      ticket_table := ticket_table s;
      next_order_id := next_order_id s + 1;
      next_ticket_id := next_ticket_id s |}).

(** [Ticket.objects.create(order=order, **ticket_data)]. The insert is
    refused with [IntegrityError] when a column without a default is
    missing, when a [PositiveIntegerField] is negative, and when
    [unique_together] is violated. [ticket_class] has a default. *)
Definition Ticket_objects_create (order : Order) (ticket_data : TicketData)
  : db Ticket := fun s =>
  match data_flight ticket_data, data_row ticket_data,
        data_seat ticket_data, data_price ticket_data with
  | Some flight, Some row, Some seat, Some price =>
      let ticket :=
        {| ticket_id := next_ticket_id s;
           ticket_row := row;
           ticket_seat := seat;
           ticket_class := default "economy" (data_ticket_class ticket_data);
           ticket_price := price;
           ticket_flight := flight_id flight;
           ticket_order := order_id order |} in
      if (row <? 0) || (seat <? 0) || (price <? 0) then
        (inl IntegrityError, s)
      else if bool_decide (seat_key ticket ∈ (seat_key <$> ticket_table s)) then
        (inl IntegrityError, s)
      else
        (inr ticket,
         {| flight_table := flight_table s;
            order_table := order_table s;
            ticket_table := ticket_table s ++ [ticket];
            next_order_id := next_order_id s;
            next_ticket_id := next_ticket_id s + 1 |})
  | _, _, _, _ => (inl IntegrityError, s)
  end.

(** [order.delete()]: [on_delete=CASCADE] takes the order's tickets. *)
Definition Order_delete (order : Order) : db unit := fun s =>
  (inr tt,
   {| flight_table := flight_table s;
      order_table :=
        filter (fun o => order_id o ≠ order_id order) (order_table s);
      ticket_table :=
        filter (fun t => ticket_order t ≠ order_id order) (ticket_table s);
      next_order_id := next_order_id s;
      next_ticket_id := next_ticket_id s |}).

(** ** serializers.py: OrderSerializer *)

(** The keyword arguments of a nested [TicketSerializer(many=True, ...)]. *)
Record ListField := {
  allow_empty : bool;
  read_only : bool;
  write_only : bool;
}.

(** [order_tickets = TicketSerializer(many=True, allow_empty=False,
    read_only=True)] *)
Definition OrderSerializer_order_tickets : ListField :=
  {| allow_empty := false; read_only := true; write_only := false |}.

(** [tickets = TicketSerializer(many=True, write_only=True)];
    [allow_empty] is left at its default. *)
Definition OrderSerializer_tickets : ListField :=
  {| allow_empty := true; read_only := false; write_only := true |}.

(** The request payload, by key. *)
Record OrderInput := {
  initial_order_tickets : option (list TicketData);
  initial_tickets : option (list TicketData);
}.

(** The [data] dict of an [OrderSerializer]: its writable fields. *)
Record OrderData := {
  data_tickets : option (list TicketData);
}.

Definition price_mapping : gmap string Z :=
  {[ "economy" := 100; "business" := 200; "first" := 300 ]}.

(** [ticket_data["price"] = price] *)
Definition set_price (ticket_data : TicketData) (price : Z) : TicketData :=
  {| data_flight := data_flight ticket_data;
     data_row := data_row ticket_data;
     data_seat := data_seat ticket_data;
     data_ticket_class := data_ticket_class ticket_data;
     data_price := Some price |}.

(** The price line of [OrderSerializer.create]:
    [price_mapping.get(ticket_data.get("ticket_class", "economy"), 100)]. *)
Definition resolve_price (ticket_data : TicketData) : Z :=
  let ticket_class := default "economy" (data_ticket_class ticket_data) in
  default 100 (price_mapping !! ticket_class).

(** The body of the loop of [OrderSerializer.create]. *)
Definition create_ticket (order : Order) (ticket_data : TicketData) : db unit :=
  let ticket_data := set_price ticket_data (resolve_price ticket_data) in
  do! _ := Ticket_objects_create order ticket_data in
  db_ret tt.

(** [OrderSerializer.create]; [user] is [self.context["request"].user]. *)
Definition OrderSerializer_create (now : Z) (user : User)
    (validated_data : OrderData) : db Order :=
  match data_tickets validated_data with
  | None => db_raise (KeyError "tickets")
  | Some tickets_data =>
      transaction_atomic
        (do! order := Order_objects_create now user in
         do! _ := for_each (create_ticket order) tickets_data in
         db_ret order)
  end.

Definition same_flight_msg : string :=
  "All tickets must be in the same flight.".

(** [ticket["flight"]] *)
Definition subscript_flight (ticket : TicketData) : result Flight :=
  match data_flight ticket with
  | Some flight => inr flight
  | None => raise (KeyError "flight")
  end.

Fixpoint map_result {A B : Type} (f : A -> result B) (l : list A)
  : result (list B) :=
  match l with
  | [] => inr []
  | x :: l' =>
      try! y := f x in
      try! ys := map_result f l' in
      inr (y :: ys)
  end.

(** [OrderSerializer.validate]. Model instances compare and hash by
    primary key, so the set of flights is the set of their ids. *)
Definition OrderSerializer_validate (data : OrderData) : result OrderData :=
  let tickets_data := data_tickets data in
  if truthy tickets_data then
    try! flights := map_result subscript_flight (default [] tickets_data) in
    let flight_ids : gset Z := list_to_set (flight_id <$> flights) in
    if bool_decide (1 < size flight_ids)%nat then
      raise (ValidationError (NonField same_flight_msg))
    else
      inr data
  else
    inr data.

(** *** Running the validation

    What [serializer.is_valid()] does with the declarations above: a
    read-only field takes no input, a writable one is required; a list
    field refuses an empty list unless [allow_empty], validates every
    item with the child serializer and reports the items' errors
    together; the serializer's own [validate] runs once its fields have
    passed. What the primitive fields do themselves (primary key to
    [Flight], JSON number to an [int] that is not negative, a known
    ticket class) has happened before and is not modelled: the items
    are [data] dicts as [TicketSerializer.validate] receives them. The
    validator that the framework derives from [unique_together] tests
    what [validate] tests first, on the same rows, and is not repeated:
    it accepts and refuses the same items, and where it refuses, a
    request gets its message in place of the seat-taken message of
    [validate]. *)

Definition empty_list_msg : string := "This list may not be empty.".
Definition required_msg : string := "This field is required.".

(** The loop of [ListSerializer.to_internal_value]: the validated items
    and, per item, its error if it has one. *)
Fixpoint run_children (child : TicketData -> result TicketData)
    (data : list TicketData) : result (list TicketData * list (option detail)) :=
  match data with
  | [] => inr ([], [])
  | item :: rest =>
      match child item with
      | inr validated =>
          try! r := run_children child rest in
          inr (validated :: r.1, None :: r.2)
      | inl (ValidationError d) =>
          try! r := run_children child rest in
          inr (r.1, Some d :: r.2)
      | inl e => inl e
      end
  end.

Definition ListSerializer_run_validation (field : ListField)
    (child : TicketData -> result TicketData) (data : list TicketData)
  : result (list TicketData) :=
  if negb (allow_empty field) && (length data =? 0)%nat then
    raise (ValidationError (NonField empty_list_msg))
  else
    try! r := run_children child data in
    if existsb (fun e : option detail => bool_decide (is_Some e)) r.2 then
      raise (ValidationError (Items r.2))
    else
      inr r.1.

(** One declared field of [OrderSerializer] applied to its input. *)
Definition run_field (name : string) (field : ListField) (s : Store)
    (initial : option (list TicketData)) : result (option (list TicketData)) :=
  if read_only field then
    inr None
  else
    match initial with
    | None => raise (ValidationError (Field name required_msg))
    | Some data =>
        match ListSerializer_run_validation field
                (TicketSerializer_validate s) data with
        | inr value => inr (Some value)
        | inl (ValidationError d) => raise (ValidationError (Nested name d))
        | inl e => inl e
        end
    end.

Definition OrderSerializer_to_internal_value (s : Store) (initial : OrderInput)
  : result OrderData :=
  try! _ := run_field "order_tickets" OrderSerializer_order_tickets s
              (initial_order_tickets initial) in
  try! tickets := run_field "tickets" OrderSerializer_tickets s
                    (initial_tickets initial) in
  inr {| data_tickets := tickets |}.

Definition OrderSerializer_run_validation (s : Store) (initial : OrderInput)
  : result OrderData :=
  try! value := OrderSerializer_to_internal_value s initial in
  OrderSerializer_validate value.

(** ** serializers.py: FlightSerializer *)

(** An aware [datetime], as its position on the time line. *)
Record datetime := { timestamp : Z }.

(** A [datetime] is always true. *)
#[export] Instance datetime_truthy : Truthy datetime := fun _ => true.

(** [a >= b] and [a < b] on values that may be [None]: comparing [None]
    with a [datetime] is a [TypeError]. *)
Definition py_ge (a b : option datetime) : result bool :=
  match a, b with
  | Some a, Some b => inr (timestamp a >=? timestamp b)
  | _, _ => raise TypeError
  end.

Definition py_lt (a b : option datetime) : result bool :=
  match a, b with
  | Some a, Some b => inr (timestamp a <? timestamp b)
  | _, _ => raise TypeError
  end.

(** [x and y], [y] evaluated only when [x] is true. *)
Definition py_and (x : bool) (y : result bool) : result bool :=
  if x then y else inr false.

Record FlightData := {
  data_departure_time : option datetime;
  data_arrival_time : option datetime;
}.

Definition arrival_msg : string := "Arrival time must be after departure time.".
Definition past_msg : string := "The time of departure cannot be in the past".

(** [FlightSerializer.validate]; [now] is [timezone.now()]. *)
Definition FlightSerializer_validate (now : datetime) (data : FlightData)
  : result FlightData :=
  let departure_time := data_departure_time data in
  let arrival_time := data_arrival_time data in
  try! c := py_and (truthy departure_time)
              (py_and (truthy arrival_time)
                 (py_ge departure_time arrival_time)) in
  if c then
    raise (ValidationError (NonField arrival_msg))
  else
    try! c := py_lt departure_time (Some now) in
    if c then
      raise (ValidationError (NonField past_msg))
    else
      inr data.

(** ** views.py: OrderViewSet *)

(** [queryset.distinct()] *)
Definition distinct (queryset : list Order) : list Order :=
  remove_dups queryset.

(** [OrderViewSet.get_queryset]. [prefetch_related] selects no rows.
    The rows come in the order of the table: [Meta.ordering], by
    [-created_at], is not modelled, the rows selected are the same. *)
Definition get_queryset (user : User) (s : Store) : list Order :=
  let queryset := order_table s in
  if negb (is_staff user) then
    if is_authenticated user then
      distinct (filter (fun o => order_user o = user_id user) queryset)
    else
      []
  else
    distinct queryset.

(** [self.get_object()]: the row of [get_queryset] with this key. *)
Definition get_object (user : User) (pk : Z) (s : Store) : result Order :=
  match filter (fun o => order_id o = pk) (get_queryset user s) with
  | order :: _ => inr order
  | [] => raise Http404
  end.

(** The [create] action: [is_valid(raise_exception=True)], then
    [serializer.save()], which calls [OrderSerializer.create]. This is
    the action as it runs once [permission_classes] has let the request
    through; [IsAuthenticated] below puts the permission in front. *)
Definition OrderViewSet_create (now : Z) (user : User) (initial : OrderInput)
  : db Order := fun s =>
  match OrderSerializer_run_validation s initial with
  | inl e => (inl e, s)
  | inr validated_data => OrderSerializer_create now user validated_data s
  end.

(** The [destroy] action, as it runs once [permission_classes] has let
    the request through. *)
Definition OrderViewSet_destroy (user : User) (pk : Z) : db unit := fun s =>
  match get_object user pk s with
  | inl e => (inl e, s)
  | inr order => Order_delete order s
  end.

(** ** Reachable stores *)

Definition empty_store (fs : list Flight) : Store :=
  {| flight_table := fs; order_table := []; ticket_table := [];
     next_order_id := 1; next_ticket_id := 1 |}.

(** What the admin site, where [Ticket] and [Flight] are registered,
    does to the tickets: saving a ticket under a changed seat is an
    UPDATE that [unique_together] still guards, deleting one removes
    its row, and deleting a flight takes its tickets ([CASCADE]). *)
Definition move_ticket (row seat flight : Z) (t : Ticket) : Ticket :=
  {| ticket_id := ticket_id t;
     ticket_row := row;
     ticket_seat := seat;
     ticket_class := ticket_class t;
     ticket_price := ticket_price t;
     ticket_flight := flight;
     ticket_order := ticket_order t |}.

Definition Ticket_update (pk row seat flight : Z) : db unit := fun s =>
  if (row <? 0) || (seat <? 0) then
    (inl IntegrityError, s)
  else if bool_decide
            (Exists (fun t => ticket_id t ≠ pk ∧ seat_key t = (row, seat, flight))
               (ticket_table s)) then
    (inl IntegrityError, s)
  else
    (inr tt,
     {| flight_table := flight_table s;
        order_table := order_table s;
        ticket_table :=
          (fun t => if bool_decide (ticket_id t = pk)
                    then move_ticket row seat flight t else t)
          <$> ticket_table s;
        next_order_id := next_order_id s;
        next_ticket_id := next_ticket_id s |}).

Definition Ticket_delete (pk : Z) : db unit := fun s =>
  (inr tt,
   {| flight_table := flight_table s;
      order_table := order_table s;
      ticket_table := filter (fun t => ticket_id t ≠ pk) (ticket_table s);
      next_order_id := next_order_id s;
      next_ticket_id := next_ticket_id s |}).

Definition Flight_delete (pk : Z) : db unit := fun s =>
  (inr tt,
   {| flight_table := filter (fun f => flight_id f ≠ pk) (flight_table s);
      order_table := order_table s;
      ticket_table := filter (fun t => ticket_flight t ≠ pk) (ticket_table s);
      next_order_id := next_order_id s;
      next_ticket_id := next_ticket_id s |}).

(** Flights and airplanes added or edited: no ticket row is touched. *)
Definition set_flights (fs : list Flight) : db unit := fun s =>
  (inr tt,
   {| flight_table := fs;
      order_table := order_table s;
      ticket_table := ticket_table s;
      next_order_id := next_order_id s;
      next_ticket_id := next_ticket_id s |}).

(** One request: the two writing actions of [OrderViewSet], or a
    change made on the admin site. *)
Inductive step : Store -> Store -> Prop :=
  | step_create now user initial s :
      step s (OrderViewSet_create now user initial s).2
  | step_destroy user pk s :
      step s (OrderViewSet_destroy user pk s).2
  | step_admin_add_ticket order ticket_data s :
      step s (Ticket_objects_create order ticket_data s).2
  | step_admin_change_ticket pk row seat flight s :
      step s (Ticket_update pk row seat flight s).2
  | step_admin_delete_ticket pk s :
      step s (Ticket_delete pk s).2
  | step_admin_delete_flight pk s :
      step s (Flight_delete pk s).2
  | step_admin_flights fs s :
      step s (set_flights fs s).2.

Inductive reachable : Store -> Prop :=
  | reachable_empty fs : reachable (empty_store fs)
  | reachable_step s s' : reachable s -> step s s' -> reachable s'.

(** The seat invariant of [Ticket.Meta.unique_together]. *)
Definition seats_unique (s : Store) : Prop :=
  NoDup (seat_key <$> ticket_table s).

(** Primary keys of tickets: distinct, and below the counter. *)
Definition ticket_ids_fresh (s : Store) : Prop :=
  NoDup (ticket_id <$> ticket_table s) ∧
  Forall (fun t => ticket_id t < next_ticket_id s) (ticket_table s).

(** What [OrderSerializer.create] stores for one validated item. *)
Definition ticket_of (order : Order) (ticket_data : TicketData) (t : Ticket)
  : Prop :=
  data_row ticket_data = Some (ticket_row t) ∧
  data_seat ticket_data = Some (ticket_seat t) ∧
  (flight_id <$> data_flight ticket_data) = Some (ticket_flight t) ∧
  ticket_class t = default "economy" (data_ticket_class ticket_data) ∧
  ticket_price t = resolve_price ticket_data ∧
  ticket_order t = order_id order.

(** The seat a ticket request asks for. *)
Definition request_key (ticket_data : TicketData)
  : option Z * option Z * option Z :=
  (data_row ticket_data, data_seat ticket_data,
   flight_id <$> data_flight ticket_data).

(** The invariant of the ticket table, and what it is for a database
    computation to keep it. *)
Definition store_inv (s : Store) : Prop := seats_unique s ∧ ticket_ids_fresh s.

Definition preserves {A : Type} (m : db A) : Prop :=
  ∀ s, store_inv s -> store_inv (m s).2.

(** The key of a stored ticket, as a request names it. *)
Definition some_key (k : Z * Z * Z) : option Z * option Z * option Z :=
  (Some k.1.1, Some k.1.2, Some k.2).

#[local] Instance some_key_inj : Inj (=) (=) some_key.
Proof. intros [[r1 s1] f1] [[r2 s2] f2] [= -> -> ->]. done. Qed.

(** ** The fixture of tests.py

    A Boeing 737-800 of 30 rows by 6 seats, two flights on it, and a
    user without staff rights. *)
Module Fixture.
Definition boeing : Airplane :=
  {| airplane_id := 1; rows := 30; seats_in_row := 6 |}.
Definition flight : Flight := {| flight_id := 1; airplane := boeing |}.
Definition flight2 : Flight := {| flight_id := 2; airplane := boeing |}.
Definition user : User :=
  {| user_id := 1; is_staff := false; is_authenticated := true |}.
Definition admin : User :=
  {| user_id := 2; is_staff := true; is_authenticated := true |}.
Definition store : Store := empty_store [flight; flight2].

Definition ticket (f : Flight) (row seat : Z) (class : string) : TicketData :=
  {| data_flight := Some f; data_row := Some row; data_seat := Some seat;
     data_ticket_class := Some class; data_price := None |}.

Definition payload (l : list TicketData) : OrderInput :=
  {| initial_order_tickets := None; initial_tickets := Some l |}.

(** The payload of [test_order_serializer_create_tickets]. *)
Definition two_seats : OrderInput :=
  payload [ticket flight 2 6 "first"; ticket flight 3 6 "economy"].

(** The payload of [test_order_serializer_validate]. *)
Definition two_flights : OrderInput :=
  payload [ticket flight 2 6 "first"; ticket flight2 3 6 "economy"].

(** One seat asked for twice in one payload. *)
Definition same_seat_twice : OrderInput :=
  payload [ticket flight 2 6 "first"; ticket flight 2 6 "economy"].

(** The store once [two_seats] is booked. *)
Definition booked : Store :=
  (OrderViewSet_create 1000 user two_seats store).2.

(** Row 30 is sold, then the flight gets an airplane of 20 rows. *)
Definition small_boeing : Airplane :=
  {| airplane_id := 1; rows := 20; seats_in_row := 6 |}.
Definition refitted_flight : Flight :=
  {| flight_id := 1; airplane := small_boeing |}.
Definition last_row : OrderInput := payload [ticket flight 30 6 "economy"].
Definition refitted : Store :=
  (set_flights [refitted_flight; flight2]
     (OrderViewSet_create 1000 user last_row store).2).2.
End Fixture.

(** ** models.py: reference data *)

Record Airport := {
  airport_id : Z;
  airport_name : string;
  closest_big_city : string;
}.

Record Route := {
  route_id : Z;
  source : Airport;
  destination : Airport;
  distance : Z;
}.

Record Crew := {
  crew_id : Z;
  first_name : string;
  last_name : string;
  experience_years : Z;
}.

(** A flight as the flight list joins it: with its route. *)
Record ScheduledFlight := {
  scheduled : Flight;
  flight_route : Route;
}.

#[export] Instance airport_truthy : Truthy Airport := fun _ => true.

(** A [str] is true unless it is empty. *)
#[export] Instance str_truthy : Truthy string := fun v =>
  match v with EmptyString => false | String _ _ => true end.

(** [a == b] on two saved instances of one model: the same primary key;
    [None == None] holds and [None] equals no instance. *)
Definition Airport_eq (a b : option Airport) : bool :=
  match a, b with
  | Some a, Some b => airport_id a =? airport_id b
  | None, None => true
  | _, _ => false
  end.

(** ** serializers.py: RouteSerializer *)

(** The [data] dict of a [RouteSerializer]. *)
Record RouteData := {
  data_source : option Airport;
  data_destination : option Airport;
}.

(** [data.get(key, getattr(self.instance, key, None))]: the value under
    the key, else the attribute of the instance, if there is one. *)
Definition get_or_instance (value : option Airport) (instance : option Route)
    (attr : Route -> Airport) : option Airport :=
  match value with
  | Some v => Some v
  | None => attr <$> instance
  end.

Definition must_differ_msg : string := "Source and destination must differ.".

(** [RouteSerializer.validate]; [instance] is [self.instance], [None]
    when a route is created. *)
Definition RouteSerializer_validate (instance : option Route) (data : RouteData)
  : result RouteData :=
  let source := get_or_instance (data_source data) instance source in
  let destination :=
    get_or_instance (data_destination data) instance destination in
  if truthy destination && truthy source && Airport_eq source destination then
    raise (ValidationError (NonField must_differ_msg))
  else
    inr data.

(** ** views.py and filters.py: the searches *)

Section lookups.

(** [field__icontains=value]: [icontains field value] tells whether the
    field contains the value, case ignored, as the database decides it. *)
Variable icontains : string -> string -> bool.

(** The query parameters [CrewViewSet.get_queryset] reads. *)
Record CrewParams := {
  GET_first : option string;
  GET_last : option string;
  GET_full_name : option string;
}.

(** [CrewViewSet.get_queryset] on the rows of [Crew.objects.all()]. *)
Definition CrewViewSet_get_queryset (request_GET : CrewParams)
    (queryset : list Crew) : list Crew :=
  let first := GET_first request_GET in
  let last := GET_last request_GET in
  let full_name := GET_full_name request_GET in
  let queryset :=
    if truthy full_name then
      filter (fun c => icontains (first_name c) (default "" full_name)
                       || icontains (last_name c) (default "" full_name))
        queryset
    else queryset in
  let queryset :=
    if truthy first then
      filter (fun c => icontains (first_name c) (default "" first)) queryset
    else queryset in
  let queryset :=
    if truthy last then
      filter (fun c => icontains (last_name c) (default "" last)) queryset
    else queryset in
  queryset.

(** The query parameters [RouteViewSet.get_queryset] reads. *)
Record RouteParams := {
  query_destination : option string;
  query_source : option string;
}.

(** [RouteViewSet.get_queryset] on the rows of [Route.objects.all()]. *)
Definition RouteViewSet_get_queryset (query_params : RouteParams)
    (queryset : list Route) : list Route :=
  let destination_ := query_destination query_params in
  let source_ := query_source query_params in
  let queryset :=
    if truthy destination_ then
      filter (fun r => icontains (airport_name (destination r))
                         (default "" destination_)) queryset
    else queryset in
  let queryset :=
    if truthy source_ then
      filter (fun r => icontains (airport_name (source r)) (default "" source_))
        queryset
    else queryset in
  queryset.

(** [FlightFilter.filter_route] *)
Definition filter_route (queryset : list ScheduledFlight) (value : string)
  : list ScheduledFlight :=
  filter (fun f => icontains (airport_name (source (flight_route f))) value
                   || icontains (airport_name (destination (flight_route f))) value)
    queryset.

End lookups.

(** What saving the serializer does to the route on an update: every
    key of the validated data is set on the instance. *)
Definition Route_update (instance : Route) (validated_data : RouteData) : Route :=
  {| route_id := route_id instance;
     source := default (source instance) (data_source validated_data);
     destination :=
       default (destination instance) (data_destination validated_data);
     distance := distance instance |}.

(** ** views.py: permissions *)

(** What a view answers to a request: a permission class has refused
    it before any action ran, or the action has run with this outcome. *)
Inductive response (A : Type) : Type :=
  | NotPermitted
  | Handled (outcome : result A).

Arguments NotPermitted {A}.
Arguments Handled {A} outcome.

(** [permission_classes = [IsAuthenticated]] in front of an action of
    a view set: [request.user.is_authenticated] decides. *)
Definition IsAuthenticated {A : Type} (user : User) (action : db A)
  : Store -> response A * Store := fun s =>
  if is_authenticated user then
    (Handled (action s).1, (action s).2)
  else
    (NotPermitted, s).

(** ** Primary keys of orders *)

(** Distinct, and below the counter. *)
Definition order_ids_fresh (s : Store) : Prop :=
  NoDup (order_id <$> order_table s) ∧
  Forall (fun o => order_id o < next_order_id s) (order_table s).

(** An item that the ticket table of [s] takes: complete, not negative,
    on a seat that no row holds. *)
Definition insertable (s : Store) (ticket_data : TicketData) : Prop :=
  ∃ flight row seat,
    data_flight ticket_data = Some flight ∧
    data_row ticket_data = Some row ∧
    data_seat ticket_data = Some seat ∧
    0 <= row ∧ 0 <= seat ∧
    (row, seat, flight_id flight) ∉ (seat_key <$> ticket_table s).

(** ** Reference data for the examples *)
Module Reference.
Definition boryspil : Airport :=
  {| airport_id := 1; airport_name := "Boryspil"; closest_big_city := "Kyiv" |}.
Definition zhuliany : Airport :=
  {| airport_id := 2; airport_name := "Zhuliany"; closest_big_city := "Kyiv" |}.
Definition route : Route :=
  {| route_id := 1; source := boryspil; destination := zhuliany;
     distance := 300 |}.
Definition way_back : Route :=
  {| route_id := 2; source := zhuliany; destination := boryspil;
     distance := 300 |}.
Definition john : Crew :=
  {| crew_id := 1; first_name := "John"; last_name := "Doe";
     experience_years := 5 |}.
Definition lee : Crew :=
  {| crew_id := 2; first_name := "John"; last_name := "Lee";
     experience_years := 5 |}.
Definition other_user : User :=
  {| user_id := 3; is_staff := false; is_authenticated := true |}.
Definition anonymous : User :=
  {| user_id := 0; is_staff := false; is_authenticated := false |}.

(** A containment test for the examples: exact match of the case,
    which is what [icontains] is on strings of one case. *)
Fixpoint contains (field value : string) : bool :=
  String.prefix value field ||
  match field with
  | EmptyString => false
  | String _ rest => contains rest value
  end.
End Reference.

(** * Properties *)

(** ** Lists of rows *)

Section rows.
Context {A B : Type} (f : A -> B).

Lemma NoDup_fmap_filter (P : A -> Prop) `{!∀ x, Decision (P x)} (l : list A) :
  NoDup (f <$> l) -> NoDup (f <$> filter P l).
Proof.
  intros Hl. eapply sublist_NoDup; [exact Hl | apply fmap_sublist, sublist_filter].
Qed.

Lemma NoDup_fmap_snoc (l : list A) (x : A) :
  NoDup (f <$> l) -> f x ∉ f <$> l -> NoDup (f <$> (l ++ [x])).
Proof.
  intros Hl Hx. rewrite fmap_app. apply NoDup_app.
  split_and!; [done | | apply NoDup_singleton].
  intros y Hy ->%list_elem_of_singleton. done.
Qed.

(** Distinct entries of a column sit at distinct rows. *)
Lemma NoDup_fmap_lookup (l : list A) (i j : nat) (x y : A) :
  NoDup (f <$> l) -> l !! i = Some x -> l !! j = Some y -> f x = f y -> i = j.
Proof.
  intros Hl Hi Hj Hxy.
  eapply NoDup_lookup; [exact Hl | |].
  - rewrite list_lookup_fmap, Hi. reflexivity.
  - rewrite list_lookup_fmap, Hj. simpl. by rewrite Hxy.
Qed.
End rows.

(** ** The inserts *)

Lemma Ticket_objects_create_inl order ticket_data s e s' :
  Ticket_objects_create order ticket_data s = (inl e, s') ->
  e = IntegrityError ∧ s' = s.
Proof.
  unfold Ticket_objects_create.
  destruct (data_flight ticket_data), (data_row ticket_data),
    (data_seat ticket_data), (data_price ticket_data);
    repeat case_match; intros [= <- <-]; done.
Qed.

Lemma Ticket_objects_create_inr order ticket_data s t s' :
  Ticket_objects_create order ticket_data s = (inr t, s') ->
  ticket_table s' = ticket_table s ++ [t] ∧
  order_table s' = order_table s ∧
  flight_table s' = flight_table s ∧
  next_order_id s' = next_order_id s ∧
  next_ticket_id s' = next_ticket_id s + 1 ∧
  ticket_id t = next_ticket_id s ∧
  (seat_key t ∉ (seat_key <$> ticket_table s)) ∧
  data_row ticket_data = Some (ticket_row t) ∧
  data_seat ticket_data = Some (ticket_seat t) ∧
  (flight_id <$> data_flight ticket_data) = Some (ticket_flight t) ∧
  data_price ticket_data = Some (ticket_price t) ∧
  ticket_class t = default "economy" (data_ticket_class ticket_data) ∧
  ticket_order t = order_id order.
Proof.
  unfold Ticket_objects_create.
  destruct (data_flight ticket_data) as [flight|], (data_row ticket_data) as [row|],
    (data_seat ticket_data) as [seat|], (data_price ticket_data) as [price|];
    try discriminate.
  destruct (_ || _); [discriminate|].
  case_bool_decide as Hfree; [discriminate|].
  intros [= <- <-]; simpl. split_and!; done.
Qed.

Lemma create_ticket_inl order ticket_data s e s' :
  create_ticket order ticket_data s = (inl e, s') ->
  e = IntegrityError ∧ s' = s.
Proof.
  unfold create_ticket, db_bind.
  destruct (Ticket_objects_create _ _ _) as [[e0|t] s0] eqn:Hc; [|discriminate].
  intros [= <- <-]. by eapply Ticket_objects_create_inl.
Qed.

Lemma create_ticket_inr order ticket_data s s' :
  create_ticket order ticket_data s = (inr tt, s') ->
  ∃ t, ticket_table s' = ticket_table s ++ [t] ∧
       order_table s' = order_table s ∧
       flight_table s' = flight_table s ∧
       next_order_id s' = next_order_id s ∧
       next_ticket_id s' = next_ticket_id s + 1 ∧
       ticket_id t = next_ticket_id s ∧
       (seat_key t ∉ (seat_key <$> ticket_table s)) ∧
       ticket_of order ticket_data t.
Proof.
  unfold create_ticket, db_bind.
  destruct (Ticket_objects_create _ _ _) as [[e0|t] s0] eqn:Hc; [discriminate|].
  intros [= <-]. apply Ticket_objects_create_inr in Hc. simpl in Hc.
  destruct Hc as (? & ? & ? & ? & ? & ? & ? & ? & ? & ? & [= Hp] & ? & ?).
  exists t. unfold ticket_of. split_and!; done.
Qed.

Lemma for_each_create_inl order tickets_data s e s' :
  for_each (create_ticket order) tickets_data s = (inl e, s') ->
  e = IntegrityError.
Proof.
  revert s. induction tickets_data as [|ticket_data rest IH]; intros s; simpl.
  - discriminate.
  - unfold db_bind.
    destruct (create_ticket order ticket_data s) as [[e0|[]] s0] eqn:Hc.
    + intros [= <- <-]. by eapply create_ticket_inl.
    + apply IH.
Qed.

(** A loop that got through has appended one ticket per item, each on a
    seat that no earlier row holds. *)
Lemma for_each_create_inr order tickets_data s s' :
  for_each (create_ticket order) tickets_data s = (inr tt, s') ->
  ∃ new, ticket_table s' = ticket_table s ++ new ∧
         order_table s' = order_table s ∧
         flight_table s' = flight_table s ∧
         next_order_id s' = next_order_id s ∧
         Forall2 (ticket_of order) tickets_data new ∧
         NoDup (seat_key <$> new) ∧
         (∀ k, k ∈ (seat_key <$> new) -> k ∉ (seat_key <$> ticket_table s)).
Proof.
  revert s. induction tickets_data as [|ticket_data rest IH]; intros s; simpl.
  - intros [= <-]. exists []. rewrite app_nil_r.
    split_and!; try done; [apply NoDup_nil_2|].
    intros k Hk. by apply elem_of_nil in Hk.
  - unfold db_bind.
    destruct (create_ticket order ticket_data s) as [[e0|[]] s0] eqn:Hc;
      [discriminate|].
    intros Hrest. apply create_ticket_inr in Hc.
    destruct Hc as (t & Ht & Ho & Hf & Hn & _ & _ & Hfree & Hof).
    apply IH in Hrest.
    destruct Hrest as (new & Ht' & Ho' & Hf' & Hn' & Hall & Hnodup & Hdisj).
    exists (t :: new). rewrite Ht', Ht, <- app_assoc. simpl.
    split_and!; try congruence.
    + by constructor.
    + apply NoDup_cons. split; [|done].
      intros Hin. apply (Hdisj _ Hin).
      rewrite Ht, fmap_app. apply elem_of_app. right.
      by apply list_elem_of_singleton.
    + intros k [->|Hin]%elem_of_cons; [done|].
      intros Hk. apply (Hdisj _ Hin).
      rewrite Ht, fmap_app. apply elem_of_app. by left.
Qed.

(** ** [OrderSerializer.create] is all or nothing *)

Lemma OrderSerializer_create_inl now user validated_data s e s' :
  OrderSerializer_create now user validated_data s = (inl e, s') -> s' = s.
Proof.
  unfold OrderSerializer_create.
  destruct (data_tickets validated_data) as [tickets_data|].
  - unfold transaction_atomic.
    destruct (db_bind _ _ s) as [[e0|o] s0]; intros [= <- <-]; done.
  - intros [= <- <-]; done.
Qed.

Lemma OrderSerializer_create_inr now user validated_data s order s' :
  OrderSerializer_create now user validated_data s = (inr order, s') ->
  ∃ tickets_data new,
    data_tickets validated_data = Some tickets_data ∧
    order = {| order_id := next_order_id s; created_at := now;
               order_user := user_id user |} ∧
    order_table s' = order_table s ++ [order] ∧
    ticket_table s' = ticket_table s ++ new ∧
    flight_table s' = flight_table s ∧
    Forall2 (ticket_of order) tickets_data new ∧
    NoDup (seat_key <$> new) ∧
    (∀ k, k ∈ (seat_key <$> new) -> k ∉ (seat_key <$> ticket_table s)).
Proof.
  unfold OrderSerializer_create.
  destruct (data_tickets validated_data) as [tickets_data|]; [|discriminate].
  unfold transaction_atomic, db_bind, Order_objects_create.
  match goal with |- context [for_each ?b ?l ?s0] =>
    destruct (for_each b l s0) as [[e0|[]] s1] eqn:Hloop end;
    [discriminate|].
  intros [= <- <-]. apply for_each_create_inr in Hloop. simpl in Hloop.
  destruct Hloop as (new & ? & ? & ? & ? & ? & ? & ?).
  exists tickets_data, new. split_and!; done.
Qed.

(** ** What every write keeps *)

Lemma preserves_ret {A} (a : A) : preserves (db_ret a).
Proof. by intros s. Qed.

Lemma preserves_raise {A} (e : exn) : preserves (@db_raise A e).
Proof. by intros s. Qed.

Lemma preserves_bind {A B} (m : db A) (k : A -> db B) :
  preserves m -> (∀ a, preserves (k a)) -> preserves (db_bind m k).
Proof.
  intros Hm Hk s Hs. unfold db_bind. specialize (Hm s Hs).
  destruct (m s) as [[e|a] s0]; simpl in *; [done|]. by apply Hk.
Qed.

Lemma preserves_for_each {A} (body : A -> db unit) (l : list A) :
  (∀ x, preserves (body x)) -> preserves (for_each body l).
Proof.
  intros Hbody. induction l as [|x l IH]; simpl.
  - apply preserves_ret.
  - apply preserves_bind; [apply Hbody | intros _; apply IH].
Qed.

Lemma preserves_atomic {A} (body : db A) :
  preserves body -> preserves (transaction_atomic body).
Proof.
  intros Hbody s Hs. unfold transaction_atomic. specialize (Hbody s Hs).
  by destruct (body s) as [[e|a] s0].
Qed.

Lemma preserves_Order_objects_create now user :
  preserves (Order_objects_create now user).
Proof. by intros s. Qed.

Lemma preserves_Ticket_objects_create order ticket_data :
  preserves (Ticket_objects_create order ticket_data).
Proof.
  intros s [Hseats [Hids Hbelow]].
  destruct (Ticket_objects_create order ticket_data s) as [[e|t] s'] eqn:Hc.
  - apply Ticket_objects_create_inl in Hc as [_ ->]. done.
  - apply Ticket_objects_create_inr in Hc.
    destruct Hc as (Ht & _ & _ & _ & Hn & Hid & Hfree & _). simpl.
    unfold store_inv, seats_unique, ticket_ids_fresh. rewrite Ht, Hn.
    split_and!.
    + by apply NoDup_fmap_snoc.
    + apply NoDup_fmap_snoc; [done|].
      intros (t' & Heq & Hin)%list_elem_of_fmap.
      rewrite Forall_forall in Hbelow. specialize (Hbelow _ Hin). lia.
    + apply Forall_app. split.
      * eapply Forall_impl; [exact Hbelow|]. simpl. intros; lia.
      * apply Forall_singleton. lia.
Qed.

Lemma preserves_create_ticket order ticket_data :
  preserves (create_ticket order ticket_data).
Proof.
  apply preserves_bind; [apply preserves_Ticket_objects_create|].
  intros _. apply preserves_ret.
Qed.

Lemma preserves_OrderSerializer_create now user validated_data :
  preserves (OrderSerializer_create now user validated_data).
Proof.
  unfold OrderSerializer_create.
  destruct (data_tickets validated_data) as [tickets_data|];
    [|apply preserves_raise].
  apply preserves_atomic, preserves_bind;
    [apply preserves_Order_objects_create|].
  intros order. apply preserves_bind; [|intros _; apply preserves_ret].
  apply preserves_for_each. intros ticket_data. apply preserves_create_ticket.
Qed.

(** Deleting rows keeps both parts of the invariant. *)
Lemma store_inv_filter (P : Ticket -> Prop) `{!∀ t, Decision (P t)} s s' :
  ticket_table s' = filter P (ticket_table s) ->
  next_ticket_id s' = next_ticket_id s ->
  store_inv s -> store_inv s'.
Proof.
  intros Ht Hn [Hseats [Hids Hbelow]].
  unfold store_inv, seats_unique, ticket_ids_fresh. rewrite Ht, Hn.
  split_and!; try by apply NoDup_fmap_filter.
  rewrite Forall_forall in Hbelow |- *.
  intros t [_ Hin]%list_elem_of_filter. by apply Hbelow.
Qed.

Lemma preserves_Order_delete order : preserves (Order_delete order).
Proof.
  intros s. by apply (store_inv_filter (fun t => ticket_order t ≠ order_id order)).
Qed.

Lemma preserves_Ticket_delete pk : preserves (Ticket_delete pk).
Proof.
  intros s. by apply (store_inv_filter (fun t => ticket_id t ≠ pk)).
Qed.

Lemma preserves_Flight_delete pk : preserves (Flight_delete pk).
Proof.
  intros s. by apply (store_inv_filter (fun t => ticket_flight t ≠ pk)).
Qed.

Lemma preserves_set_flights fs : preserves (set_flights fs).
Proof. by intros s. Qed.

(** Moving the ticket [pk] to a seat no other ticket holds. *)
Lemma NoDup_seat_key_move pk row seat flight (l : list Ticket) :
  let change := fun t => if bool_decide (ticket_id t = pk)
                         then move_ticket row seat flight t else t in
  NoDup (ticket_id <$> l) ->
  NoDup (seat_key <$> l) ->
  ¬ Exists (fun t => ticket_id t ≠ pk ∧ seat_key t = (row, seat, flight)) l ->
  NoDup (seat_key <$> (change <$> l)).
Proof.
  intros change. induction l as [|t l IH]; simpl; [constructor|].
  intros [Hid Hids]%NoDup_cons [Hkey Hkeys]%NoDup_cons Hother.
  rewrite Exists_cons in Hother. apply NoDup_cons. split.
  - intros (t2 & Heq & (t' & -> & Hin)%list_elem_of_fmap)%list_elem_of_fmap.
    assert (ticket_id t' ≠ ticket_id t) as Hne.
    { intros Heq'. apply Hid. rewrite <- Heq'. by apply list_elem_of_fmap_2. }
    assert (¬ (ticket_id t' ≠ pk ∧ seat_key t' = (row, seat, flight))) as Ht'.
    { intros H'. apply Hother. right. apply Exists_exists. eauto. }
    unfold change in Heq. repeat case_bool_decide; simpl in Heq.
    + congruence.
    + apply Ht'. split; [done|]. by rewrite <- Heq.
    + apply Hother. left. split; [done|]. by rewrite Heq.
    + apply Hkey. rewrite Heq. by apply list_elem_of_fmap_2.
  - apply IH; try done. intros H'. apply Hother. by right.
Qed.

Lemma preserves_Ticket_update pk row seat flight :
  preserves (Ticket_update pk row seat flight).
Proof.
  intros s [Hseats [Hids Hbelow]]. unfold Ticket_update.
  destruct (_ || _); [done|].
  case_bool_decide as Hother; [done|]. simpl.
  assert (∀ l : list Ticket,
    ticket_id <$> ((fun t => if bool_decide (ticket_id t = pk)
                             then move_ticket row seat flight t else t) <$> l)
    = ticket_id <$> l) as Hsame.
  { intros l. rewrite <- list_fmap_compose. apply list_fmap_ext.
    intros i t _. simpl. by case_bool_decide. }
  unfold store_inv, seats_unique, ticket_ids_fresh. simpl. split_and!.
  - by apply NoDup_seat_key_move.
  - by rewrite Hsame.
  - apply Forall_fmap. eapply Forall_impl; [exact Hbelow|].
    intros t Ht. simpl. by case_bool_decide.
Qed.

Lemma preserves_OrderViewSet_create now user initial :
  preserves (OrderViewSet_create now user initial).
Proof.
  intros s Hs. unfold OrderViewSet_create.
  destruct (OrderSerializer_run_validation s initial); [done|].
  by apply preserves_OrderSerializer_create.
Qed.

Lemma preserves_OrderViewSet_destroy user pk :
  preserves (OrderViewSet_destroy user pk).
Proof.
  intros s Hs. unfold OrderViewSet_destroy.
  destruct (get_object user pk s); [done|]. by apply preserves_Order_delete.
Qed.

Lemma store_inv_empty fs : store_inv (empty_store fs).
Proof.
  unfold store_inv, seats_unique, ticket_ids_fresh. simpl.
  split_and!; constructor.
Qed.

Lemma store_inv_step s s' : store_inv s -> step s s' -> store_inv s'.
Proof.
  intros Hs Hstep. destruct Hstep.
  - by apply preserves_OrderViewSet_create.
  - by apply preserves_OrderViewSet_destroy.
  - by apply preserves_Ticket_objects_create.
  - by apply preserves_Ticket_update.
  - by apply preserves_Ticket_delete.
  - by apply preserves_Flight_delete.
  - by apply preserves_set_flights.
Qed.

Lemma store_inv_reachable s : reachable s -> store_inv s.
Proof.
  induction 1 as [fs|s s' _ IH Hstep].
  - apply store_inv_empty.
  - by eapply store_inv_step.
Qed.

(** ** The claims *)

(** C1. In every store that can be reached, no two ticket rows have the
    same flight, row and seat: every operation preserves the invariant, the
    creation of an order with its tickets in particular. *)
Theorem reachable_seats_unique (s : Store) :
  reachable s ->
  ∀ (i j : nat) (t1 t2 : Ticket),
    ticket_table s !! i = Some t1 ->
    ticket_table s !! j = Some t2 ->
    ticket_flight t1 = ticket_flight t2 ->
    ticket_row t1 = ticket_row t2 ->
    ticket_seat t1 = ticket_seat t2 ->
    i = j.
Proof.
  intros [Hseats _]%store_inv_reachable i j t1 t2 Hi Hj Hf Hr Hs.
  eapply (NoDup_fmap_lookup seat_key); [exact Hseats | exact Hi | exact Hj |].
  unfold seat_key. congruence.
Qed.

Lemma reachable_seats_unique_witness :
  reachable Fixture.booked ∧
  ∃ t, ticket_table Fixture.booked !! 1%nat = Some t ∧ 1%nat = 1%nat.
Proof.
  assert (reachable Fixture.booked) as Hreach.
  { exact (reachable_step _ _
             (reachable_empty [Fixture.flight; Fixture.flight2])
             (step_create 1000 Fixture.user Fixture.two_seats Fixture.store)). }
  split; [exact Hreach|].
  eexists. split; [reflexivity|].
  eapply (reachable_seats_unique _ Hreach 1%nat 1%nat); reflexivity.
Defined.

(** C2. Creating an order is atomic: either the order and all its
    tickets are stored together, or, when a step after the creation of
    the order fails, nothing is stored and the store is as it was. *)
Theorem order_creation_atomic (now : Z) (user : User) (s : Store) :
  (∀ validated_data,
     (∃ e, OrderSerializer_create now user validated_data s = (inl e, s)) ∨
     (∃ order tickets_data new s',
        OrderSerializer_create now user validated_data s = (inr order, s') ∧
        data_tickets validated_data = Some tickets_data ∧
        order_table s' = order_table s ++ [order] ∧
        ticket_table s' = ticket_table s ++ new ∧
        Forall2 (ticket_of order) tickets_data new)) ∧
  (∀ initial,
     (∃ e, OrderViewSet_create now user initial s = (inl e, s)) ∨
     (∃ order tickets_data new s',
        OrderViewSet_create now user initial s = (inr order, s') ∧
        OrderSerializer_run_validation s initial
          = inr {| data_tickets := Some tickets_data |} ∧
        order_table s' = order_table s ++ [order] ∧
        ticket_table s' = ticket_table s ++ new ∧
        Forall2 (ticket_of order) tickets_data new)).
Proof.
  assert (∀ validated_data,
     (∃ e, OrderSerializer_create now user validated_data s = (inl e, s)) ∨
     (∃ order tickets_data new s',
        OrderSerializer_create now user validated_data s = (inr order, s') ∧
        data_tickets validated_data = Some tickets_data ∧
        order_table s' = order_table s ++ [order] ∧
        ticket_table s' = ticket_table s ++ new ∧
        Forall2 (ticket_of order) tickets_data new)) as Hcreate.
  { intros validated_data.
    destruct (OrderSerializer_create now user validated_data s)
      as [[e|order] s'] eqn:Hc.
    - left. exists e. by apply OrderSerializer_create_inl in Hc as ->.
    - right. pose proof Hc as Hc'. apply OrderSerializer_create_inr in Hc'.
      destruct Hc' as (tickets_data & new & ? & _ & ? & ? & _ & ? & _).
      by exists order, tickets_data, new, s'. }
  split; [exact Hcreate|].
  intros initial. unfold OrderViewSet_create.
  destruct (OrderSerializer_run_validation s initial) as [e|validated_data].
  - left. by exists e.
  - destruct (Hcreate validated_data)
      as [He|(order & tickets_data & new & s' & Hc & Hd & Ho & Ht & Hall)].
    + by left.
    + right. exists order, tickets_data, new, s'.
      destruct validated_data as [d]. simpl in Hd. subst d. done.
Qed.

(** The rollback is at work in the fixture: after the first of two
    requests for one seat the transaction holds an order and a ticket,
    and none of them is there once the second insert is refused. *)
Example rollback_discards_partial_order :
  let order := {| order_id := 1; created_at := 1000; order_user := 1 |} in
  let body :=
    do! order := Order_objects_create 1000 Fixture.user in
    do! _ := for_each (create_ticket order)
               [Fixture.ticket Fixture.flight 2 6 "first";
                Fixture.ticket Fixture.flight 2 6 "economy"] in
    db_ret order in
  (body Fixture.store).1 = inl IntegrityError ∧
  order_table (body Fixture.store).2 = [order] ∧
  length (ticket_table (body Fixture.store).2) = 1%nat ∧
  transaction_atomic body Fixture.store = (inl IntegrityError, Fixture.store).
Proof. vm_compute. done. Qed.

(** ** What validation lets through *)

Lemma TicketSerializer_validate_inr s data value :
  TicketSerializer_validate s data = inr value -> value = data.
Proof.
  unfold TicketSerializer_validate, raise.
  repeat case_match; intros [= <-]; done.
Qed.

Lemma run_children_inr s data values errors :
  run_children (TicketSerializer_validate s) data = inr (values, errors) ->
  existsb (fun e : option detail => bool_decide (is_Some e)) errors = false ->
  values = data ∧ Forall (fun item => TicketSerializer_validate s item = inr item) data.
Proof.
  revert values errors. induction data as [|item rest IH]; simpl.
  - intros values errors [= <- <-] _. done.
  - intros values errors.
    destruct (TicketSerializer_validate s item) as [[d| | | |]|value] eqn:Hitem;
      try discriminate;
      (destruct (run_children _ rest) as [e|[values' errors']] eqn:Hrest;
       simpl; [discriminate|]); intros [= <- <-]; simpl.
    + discriminate.
    + intros Herr.
      destruct (IH _ _ eq_refl Herr) as [-> Hall].
      apply TicketSerializer_validate_inr in Hitem as Hv. subst value.
      split; [done|]. by constructor.
Qed.

(** Input that passes validation comes out as it went in, and every
    item has passed [TicketSerializer.validate] on its own. *)
Lemma OrderSerializer_to_internal_value_inr s initial value :
  OrderSerializer_to_internal_value s initial = inr value ->
  ∃ tickets_data,
    initial_tickets initial = Some tickets_data ∧
    value = {| data_tickets := Some tickets_data |} ∧
    Forall (fun item => TicketSerializer_validate s item = inr item) tickets_data.
Proof.
  unfold OrderSerializer_to_internal_value, run_field,
    ListSerializer_run_validation, rbind, raise. simpl.
  destruct (initial_tickets initial) as [tickets_data|]; [|discriminate].
  destruct (run_children _ tickets_data) as [e|[values errors]] eqn:Hrun.
  { destruct e; discriminate. }
  simpl. destruct (existsb _ errors) eqn:Herr; [discriminate|].
  intros [= <-]. apply run_children_inr in Hrun as [-> Hall]; [|done].
  by exists tickets_data.
Qed.

Lemma OrderSerializer_validate_inr data value :
  OrderSerializer_validate data = inr value -> value = data.
Proof.
  unfold OrderSerializer_validate, rbind, raise.
  repeat case_match; intros [= <-]; done.
Qed.

Lemma OrderSerializer_run_validation_inr s initial value :
  OrderSerializer_run_validation s initial = inr value ->
  ∃ tickets_data,
    initial_tickets initial = Some tickets_data ∧
    value = {| data_tickets := Some tickets_data |} ∧
    Forall (fun item => TicketSerializer_validate s item = inr item) tickets_data.
Proof.
  unfold OrderSerializer_run_validation, rbind.
  destruct (OrderSerializer_to_internal_value s initial) as [e|v] eqn:Hv;
    [discriminate|].
  intros ->%OrderSerializer_validate_inr.
  by apply OrderSerializer_to_internal_value_inr.
Qed.

(** ** A seat asked for twice *)

Lemma ticket_of_request_key order ticket_data t :
  ticket_of order ticket_data t -> request_key ticket_data = some_key (seat_key t).
Proof.
  intros (Hr & Hs & Hf & _). unfold request_key, some_key, seat_key. simpl.
  by rewrite Hr, Hs, Hf.
Qed.

Lemma stored_request_keys order tickets_data new :
  Forall2 (ticket_of order) tickets_data new ->
  request_key <$> tickets_data = some_key <$> (seat_key <$> new).
Proof.
  induction 1 as [|ticket_data t ? ? Hof _ IH]; simpl; [done|].
  f_equal; [by eapply ticket_of_request_key | done].
Qed.

Lemma OrderSerializer_create_inl_exn now user validated_data tickets_data s e s' :
  data_tickets validated_data = Some tickets_data ->
  OrderSerializer_create now user validated_data s = (inl e, s') ->
  e = IntegrityError.
Proof.
  unfold OrderSerializer_create. intros ->.
  unfold transaction_atomic, db_bind, Order_objects_create.
  match goal with |- context [for_each ?b ?l ?s0] =>
    destruct (for_each b l s0) as [[e0|[]] s1] eqn:Hloop end;
    intros [= <- <-].
  by eapply for_each_create_inl.
Qed.

(** With one seat twice among its items, [create] cannot get through. *)
Lemma OrderSerializer_create_same_seat now user tickets_data s i j t1 t2 :
  i ≠ j ->
  tickets_data !! i = Some t1 ->
  tickets_data !! j = Some t2 ->
  request_key t1 = request_key t2 ->
  OrderSerializer_create now user {| data_tickets := Some tickets_data |} s
  = (inl IntegrityError, s).
Proof.
  intros Hij Hi Hj Hkey.
  destruct (OrderSerializer_create now user _ s) as [[e|order] s'] eqn:Hc.
  - apply OrderSerializer_create_inl in Hc as Hs. subst s'.
    by apply (OrderSerializer_create_inl_exn _ _ _ tickets_data) in Hc as ->.
  - apply OrderSerializer_create_inr in Hc.
    destruct Hc as (tds & new & [= <-] & _ & _ & _ & _ & Hall & Hnodup & _).
    exfalso. apply Hij.
    eapply (NoDup_fmap_lookup request_key); [|exact Hi|exact Hj|exact Hkey].
    rewrite (stored_request_keys _ _ _ Hall). by apply (NoDup_fmap_2 some_key).
Qed.

(** ** Counting flights *)

Lemma map_result_subscript_flight tickets_data flights :
  data_flight <$> tickets_data = Some <$> flights ->
  map_result subscript_flight tickets_data = inr flights.
Proof.
  revert flights. induction tickets_data as [|ticket rest IH];
    intros [|f flights]; simpl; try done.
  intros [= Hf Hrest]. rewrite (IH _ Hrest).
  unfold subscript_flight. by rewrite Hf.
Qed.

Lemma two_flight_ids (ids : list Z) (a b : Z) :
  a ∈ ids -> b ∈ ids -> a ≠ b -> (1 < size (list_to_set ids : gset Z))%nat.
Proof.
  intros Ha Hb Hab.
  assert (({[a]} ∪ {[b]} : gset Z) ⊆ list_to_set ids) as Hsub.
  { intros x [->%elem_of_singleton| ->%elem_of_singleton]%elem_of_union;
      by apply elem_of_list_to_set. }
  apply subseteq_size in Hsub.
  rewrite size_union, !size_singleton in Hsub by set_solver. lia.
Qed.

Lemma one_flight_id (ids : list Z) :
  (∀ a b, a ∈ ids -> b ∈ ids -> a = b) ->
  ¬ (1 < size (list_to_set ids : gset Z))%nat.
Proof.
  intros Hsame. destruct ids as [|a ids].
  - change (list_to_set [] : gset Z) with (∅ : gset Z).
    rewrite size_empty. lia.
  - assert ((list_to_set (a :: ids) : gset Z) ⊆ {[a]}) as Hsub.
    { intros x Hx%elem_of_list_to_set. apply elem_of_singleton.
      apply Hsame; [done | apply elem_of_cons; by left]. }
    apply subseteq_size in Hsub. rewrite size_singleton in Hsub. lia.
Qed.

Lemma OrderSerializer_validate_two_flights tickets_data flights f1 f2 :
  data_flight <$> tickets_data = Some <$> flights ->
  f1 ∈ flights -> f2 ∈ flights -> flight_id f1 ≠ flight_id f2 ->
  OrderSerializer_validate {| data_tickets := Some tickets_data |}
  = inl (ValidationError (NonField same_flight_msg)).
Proof.
  intros Hflights H1 H2 Hne. unfold OrderSerializer_validate. simpl.
  destruct tickets_data as [|ticket rest].
  { destruct flights; [by apply elem_of_nil in H1 | discriminate]. }
  unfold truthy, option_truthy, truthy, list_truthy.
  rewrite (map_result_subscript_flight _ _ Hflights). simpl.
  rewrite bool_decide_eq_true_2; [done|].
  apply (two_flight_ids _ (flight_id f1) (flight_id f2));
    [by apply list_elem_of_fmap_2 | by apply list_elem_of_fmap_2 | done].
Qed.

Lemma OrderSerializer_validate_one_flight tickets_data flights :
  data_flight <$> tickets_data = Some <$> flights ->
  (∀ f1 f2, f1 ∈ flights -> f2 ∈ flights -> flight_id f1 = flight_id f2) ->
  OrderSerializer_validate {| data_tickets := Some tickets_data |}
  = inr {| data_tickets := Some tickets_data |}.
Proof.
  intros Hflights Hsame. unfold OrderSerializer_validate. simpl.
  destruct tickets_data as [|ticket rest]; [done|].
  unfold truthy, option_truthy, truthy, list_truthy.
  rewrite (map_result_subscript_flight _ _ Hflights). simpl.
  rewrite bool_decide_eq_false_2; [done|].
  apply one_flight_id.
  intros a b (f1 & -> & H1)%list_elem_of_fmap (f2 & -> & H2)%list_elem_of_fmap.
  by apply Hsame.
Qed.

Lemma run_children_all_inr s data :
  Forall (fun item => TicketSerializer_validate s item = inr item) data ->
  run_children (TicketSerializer_validate s) data
  = inr (data, replicate (length data) None).
Proof.
  induction 1 as [|item rest Hitem _ IH]; simpl; [done|].
  by rewrite Hitem, IH.
Qed.

Lemma existsb_replicate_None (n : nat) :
  existsb (fun e : option detail => bool_decide (is_Some e)) (replicate n None)
  = false.
Proof. induction n as [|n IH]; simpl; [done|]. exact IH. Qed.

(** Validation looks at the items one by one and at their flights. *)
Lemma OrderSerializer_run_validation_items s initial tickets_data :
  initial_tickets initial = Some tickets_data ->
  Forall (fun item => TicketSerializer_validate s item = inr item) tickets_data ->
  OrderSerializer_run_validation s initial
  = OrderSerializer_validate {| data_tickets := Some tickets_data |}.
Proof.
  intros Hinit Hall.
  unfold OrderSerializer_run_validation, OrderSerializer_to_internal_value,
    run_field, ListSerializer_run_validation. simpl. rewrite Hinit. simpl.
  rewrite (run_children_all_inr _ _ Hall). simpl.
  by rewrite existsb_replicate_None.
Qed.

(** C3, as the code has it. Validation checks every ticket request
    against the stored tickets only, never against the other requests
    of its batch: a batch that asks for one seat twice passes whenever
    its items pass one by one on one flight. It is the insert of the
    second ticket that fails, on the uniqueness constraint, and the
    transaction takes the order back: with one seat asked for twice no
    order and no ticket is stored, be it validation (for some other
    reason) or the insert that turns the request down. *)
Theorem same_seat_twice_is_rolled_back
    (now : Z) (user : User) (initial : OrderInput)
    (tickets_data : list TicketData) (s : Store)
    (i j : nat) (t1 t2 : TicketData) :
  initial_tickets initial = Some tickets_data ->
  i ≠ j ->
  tickets_data !! i = Some t1 ->
  tickets_data !! j = Some t2 ->
  request_key t1 = request_key t2 ->
  (Forall (fun item => TicketSerializer_validate s item = inr item) tickets_data ->
   OrderSerializer_run_validation s initial
   = OrderSerializer_validate {| data_tickets := Some tickets_data |}) ∧
  match OrderSerializer_run_validation s initial with
  | inl e => OrderViewSet_create now user initial s = (inl e, s)
  | inr _ => OrderViewSet_create now user initial s = (inl IntegrityError, s)
  end.
Proof.
  intros Hinit Hij Hi Hj Hkey. split.
  { by apply OrderSerializer_run_validation_items. }
  unfold OrderViewSet_create.
  destruct (OrderSerializer_run_validation s initial) as [e|value] eqn:Hv;
    [done|].
  apply OrderSerializer_run_validation_inr in Hv.
  destruct Hv as (tds & Htds & -> & _).
  rewrite Hinit in Htds. injection Htds as <-.
  by eapply OrderSerializer_create_same_seat.
Qed.

Lemma same_seat_twice_is_rolled_back_witness :
  OrderSerializer_run_validation Fixture.store Fixture.same_seat_twice
  = OrderSerializer_validate
      {| data_tickets := initial_tickets Fixture.same_seat_twice |} ∧
  OrderViewSet_create 1000 Fixture.user Fixture.same_seat_twice Fixture.store
  = (inl IntegrityError, Fixture.store).
Proof.
  pose proof (same_seat_twice_is_rolled_back 1000 Fixture.user
    Fixture.same_seat_twice
    [Fixture.ticket Fixture.flight 2 6 "first";
     Fixture.ticket Fixture.flight 2 6 "economy"]
    Fixture.store 0%nat 1%nat
    (Fixture.ticket Fixture.flight 2 6 "first")
    (Fixture.ticket Fixture.flight 2 6 "economy")
    eq_refl ltac:(lia) eq_refl eq_refl eq_refl) as [Hitems Hcreate].
  split.
  - apply Hitems. repeat constructor.
  - exact Hcreate.
Defined.

(** C3, as the claim has it, fails on the fixture: the two requests are
    for row 2, seat 6 of one flight, the seat is free, and validation
    accepts the batch. *)
Lemma same_seat_twice_passes_validation :
  request_key (Fixture.ticket Fixture.flight 2 6 "first")
  = request_key (Fixture.ticket Fixture.flight 2 6 "economy") ∧
  OrderSerializer_run_validation Fixture.store Fixture.same_seat_twice
  = inr {| data_tickets := initial_tickets Fixture.same_seat_twice |} ∧
  ¬ (∃ d, OrderSerializer_run_validation Fixture.store Fixture.same_seat_twice
          = inl (ValidationError d)).
Proof.
  split_and!; [reflexivity | reflexivity |].
  intros [d Hd]. vm_compute in Hd. discriminate.
Qed.

(** C4. The code accepts an empty ticket list: [allow_empty=False] is
    set on the read-only [order_tickets], the writable [tickets] keeps
    the default, and [validate] skips an empty list. An order without
    tickets is stored. *)
Theorem empty_ticket_list_is_booked
    (now : Z) (user : User) (s : Store) (ignored : option (list TicketData)) :
  let initial := {| initial_order_tickets := ignored;
                    initial_tickets := Some [] |} in
  let order := {| order_id := next_order_id s; created_at := now;
                  order_user := user_id user |} in
  OrderSerializer_run_validation s initial = inr {| data_tickets := Some [] |} ∧
  (OrderViewSet_create now user initial s).1 = inr order ∧
  order_table (OrderViewSet_create now user initial s).2
  = order_table s ++ [order] ∧
  ticket_table (OrderViewSet_create now user initial s).2 = ticket_table s.
Proof. by split_and!. Qed.

(** Every item gets its entry in the errors of the list. *)
Lemma TicketSerializer_validate_inl s data e :
  TicketSerializer_validate s data = inl e -> ∃ d, e = ValidationError d.
Proof.
  unfold TicketSerializer_validate, raise.
  repeat case_match; intros [= <-]; by eexists.
Qed.

Lemma run_children_errors s data :
  ∃ values errors,
    run_children (TicketSerializer_validate s) data = inr (values, errors) ∧
    length errors = length data ∧
    ∀ item e, item ∈ data -> TicketSerializer_validate s item = inl e ->
              existsb (fun e : option detail => bool_decide (is_Some e)) errors
              = true.
Proof.
  induction data as [|item rest (values & errors & Hrun & Hlen & Hbad)]; simpl.
  - exists [], []. split_and!; try done.
    intros item e Hin. by apply elem_of_nil in Hin.
  - rewrite Hrun. simpl.
    destruct (TicketSerializer_validate s item) as [e|value] eqn:Hitem.
    + destruct (TicketSerializer_validate_inl _ _ _ Hitem) as [d ->].
      exists values, (Some d :: errors). simpl. split_and!; try done.
      by rewrite Hlen.
    + exists (value :: values), (None :: errors). simpl.
      split_and!; try done; [by rewrite Hlen|].
      intros item' e [->|Hin]%elem_of_cons Hitem'; [congruence|].
      by eapply Hbad.
Qed.

(** C5, as the code has it. The ticket requests are validated one by
    one before [OrderSerializer.validate] looks at the flights. A
    booking request whose tickets are on more than one flight is turned
    down, and nothing is stored: with the same-flight error when every
    item passes [TicketSerializer.validate], and else with the errors
    of the items, one entry per item, under [tickets]. The validated
    data of such a request is what [OrderSerializer.validate] refuses
    with the same-flight error, and when all tickets are on one flight
    that check passes. *)
Theorem more_than_one_flight_is_rejected
    (tickets_data : list TicketData) (flights : list Flight) :
  data_flight <$> tickets_data = Some <$> flights ->
  ((∃ f1 f2, f1 ∈ flights ∧ f2 ∈ flights ∧ flight_id f1 ≠ flight_id f2) ->
   OrderSerializer_validate {| data_tickets := Some tickets_data |}
   = inl (ValidationError (NonField same_flight_msg)) ∧
   ∀ now user s ignored,
     let initial := {| initial_order_tickets := ignored;
                       initial_tickets := Some tickets_data |} in
     ∃ e, OrderViewSet_create now user initial s = (inl e, s) ∧
          OrderSerializer_run_validation s initial = inl e ∧
          (Forall (fun item => TicketSerializer_validate s item = inr item)
             tickets_data ->
           e = ValidationError (NonField same_flight_msg)) ∧
          (∀ item e0,
             item ∈ tickets_data ->
             TicketSerializer_validate s item = inl e0 ->
             ∃ errors,
               e = ValidationError (Nested "tickets" (Items errors)) ∧
               length errors = length tickets_data)) ∧
  ((∀ f1 f2, f1 ∈ flights -> f2 ∈ flights -> flight_id f1 = flight_id f2) ->
   OrderSerializer_validate {| data_tickets := Some tickets_data |}
   = inr {| data_tickets := Some tickets_data |}).
Proof.
  intros Hflights. split.
  - intros (f1 & f2 & H1 & H2 & Hne).
    pose proof (OrderSerializer_validate_two_flights _ _ _ _ Hflights H1 H2 Hne)
      as Hvalidate.
    split; [exact Hvalidate|].
    intros now user s ignored initial.
    assert (∃ e, OrderSerializer_run_validation s initial = inl e) as [e He].
    { destruct (OrderSerializer_run_validation s initial) as [e|value] eqn:Hv;
        [by exists e|].
      unfold OrderSerializer_run_validation, rbind in Hv.
      destruct (OrderSerializer_to_internal_value s initial) as [e|v] eqn:Hi;
        [discriminate|].
      apply OrderSerializer_to_internal_value_inr in Hi
        as (tds & [= <-] & -> & _).
      rewrite Hvalidate in Hv. discriminate. }
    exists e. unfold OrderViewSet_create. rewrite He. split_and!; try done.
    + intros Hall.
      rewrite (OrderSerializer_run_validation_items s initial tickets_data)
        in He by done.
      rewrite Hvalidate in He. by injection He as <-.
    + intros item e0 Hin Hbad.
      destruct (run_children_errors s tickets_data)
        as (values & errors & Hrun & Hlen & Herr).
      exists errors. split; [|done].
      unfold OrderSerializer_run_validation, OrderSerializer_to_internal_value,
        run_field, ListSerializer_run_validation in He. simpl in He.
      rewrite Hrun in He. simpl in He.
      rewrite (Herr _ _ Hin Hbad) in He. simpl in He. by injection He as <-.
  - by apply OrderSerializer_validate_one_flight.
Qed.

Lemma more_than_one_flight_is_rejected_witness :
  OrderViewSet_create 1000 Fixture.user Fixture.two_flights Fixture.store
  = (inl (ValidationError (NonField same_flight_msg)), Fixture.store) ∧
  OrderSerializer_validate
    {| data_tickets := initial_tickets Fixture.two_seats |}
  = inr {| data_tickets := initial_tickets Fixture.two_seats |}.
Proof.
  split.
  - destruct (more_than_one_flight_is_rejected
      [Fixture.ticket Fixture.flight 2 6 "first";
       Fixture.ticket Fixture.flight2 3 6 "economy"]
      [Fixture.flight; Fixture.flight2] eq_refl) as [Hreject _].
    destruct Hreject as [_ Hcreate].
    { exists Fixture.flight, Fixture.flight2.
      split_and!; [apply elem_of_cons; by left
                  | apply elem_of_cons; right; apply elem_of_cons; by left
                  | discriminate]. }
    destruct (Hcreate 1000 Fixture.user Fixture.store None)
      as (e & Hc & _ & He & _).
    rewrite He in Hc by repeat constructor. exact Hc.
  - destruct (more_than_one_flight_is_rejected
      [Fixture.ticket Fixture.flight 2 6 "first";
       Fixture.ticket Fixture.flight 3 6 "economy"]
      [Fixture.flight; Fixture.flight] eq_refl) as [_ Hpass].
    apply Hpass.
    intros f1 f2 H1 H2.
    apply elem_of_cons in H1 as [->|H1]; [|apply list_elem_of_singleton in H1 as ->];
    apply elem_of_cons in H2 as [->|H2]; try apply list_elem_of_singleton in H2 as ->;
    reflexivity.
Defined.

(** C5, as the claim has it, fails on a request for two flights with a
    row that the airplane does not have: row 31 of 30 on the second
    flight. The request is turned down with the error of that item,
    not with the same-flight error. *)
Lemma two_flights_with_a_bad_row_get_the_row_error :
  flight_id Fixture.flight ≠ flight_id Fixture.flight2 ∧
  OrderViewSet_create 1000 Fixture.user
    (Fixture.payload [Fixture.ticket Fixture.flight 2 6 "first";
                      Fixture.ticket Fixture.flight2 31 6 "economy"])
    Fixture.store
  = (inl (ValidationError
            (Nested "tickets"
               (Items [None;
                       Some (NonField "Row number must be between 1 and 30.")]))),
     Fixture.store) ∧
  OrderSerializer_run_validation Fixture.store
    (Fixture.payload [Fixture.ticket Fixture.flight 2 6 "first";
                      Fixture.ticket Fixture.flight2 31 6 "economy"])
  ≠ inl (ValidationError (NonField same_flight_msg)).
Proof.
  split_and!; [discriminate | reflexivity | vm_compute; discriminate].
Qed.

(** ** The seat map *)

Lemma exists_filter_nil s flight row seat :
  Ticket_objects_filter s flight row seat = [] ->
  exists_ (Ticket_objects_filter s flight row seat) = false.
Proof. by intros ->. Qed.

(** C6, as the code has it. For a request with a row and a seat other
    than 0, on a seat that no stored ticket of the flight holds:
    validation succeeds when row and seat are within the airplane,
    fails on the row with the bounds 1 and [rows] when the row is not,
    and else fails on the seat with the bounds 1 and [seats_in_row].
    The seat of a stored ticket is reported as taken, in range or not:
    that test comes first. *)
Theorem seat_map_is_enforced
    (s : Store) (flight : Flight) (row seat : Z)
    (class : option string) (price : option Z) :
  let data := {| data_flight := Some flight; data_row := Some row;
                 data_seat := Some seat; data_ticket_class := class;
                 data_price := price |} in
  row ≠ 0 -> seat ≠ 0 ->
  (Ticket_objects_filter s flight row seat = [] ->
   (1 <= row <= rows (airplane flight) ->
    1 <= seat <= seats_in_row (airplane flight) ->
    TicketSerializer_validate s data = inr data) ∧
   (row < 1 ∨ row > rows (airplane flight) ->
    TicketSerializer_validate s data
    = inl (ValidationError (NonField (row_range_msg (airplane flight))))) ∧
   (1 <= row <= rows (airplane flight) ->
    seat < 1 ∨ seat > seats_in_row (airplane flight) ->
    TicketSerializer_validate s data
    = inl (ValidationError (NonField (seat_range_msg (airplane flight)))))) ∧
  (Ticket_objects_filter s flight row seat ≠ [] ->
   TicketSerializer_validate s data
   = inl (ValidationError (Field "seat" seat_taken_msg))).
Proof.
  intros data Hrow Hseat.
  assert (all [truthy (Some flight); truthy (Some row); truthy (Some seat)]
          = true) as Hall.
  { unfold all, truthy, option_truthy, truthy, flight_truthy, int_truthy. simpl.
    destruct (Z.eqb_spec row 0), (Z.eqb_spec seat 0); done. }
  unfold TicketSerializer_validate, data.
  cbn [data_flight data_row data_seat]. rewrite Hall. cbn [negb].
  split.
  - intros Hfree. rewrite (exists_filter_nil _ _ _ _ Hfree). split_and!.
    + intros Hr Hs.
      destruct (Z.ltb_spec row 1), (Z.gtb_spec row (rows (airplane flight))),
        (Z.ltb_spec seat 1), (Z.gtb_spec seat (seats_in_row (airplane flight)));
        simpl; try lia; done.
    + intros Hr.
      destruct (Z.ltb_spec row 1), (Z.gtb_spec row (rows (airplane flight)));
        simpl; try lia; done.
    + intros Hr Hs.
      destruct (Z.ltb_spec row 1), (Z.gtb_spec row (rows (airplane flight)));
        simpl; try lia.
      destruct (Z.ltb_spec seat 1), (Z.gtb_spec seat (seats_in_row (airplane flight)));
        simpl; try lia; done.
  - intros Htaken.
    destruct (Ticket_objects_filter s flight row seat); done.
Qed.

Lemma seat_map_is_enforced_witness :
  TicketSerializer_validate Fixture.store
    (Fixture.ticket Fixture.flight 10 6 "first")
  = inr (Fixture.ticket Fixture.flight 10 6 "first") ∧
  TicketSerializer_validate Fixture.store
    (Fixture.ticket Fixture.flight 31 6 "first")
  = inl (ValidationError (NonField "Row number must be between 1 and 30.")) ∧
  TicketSerializer_validate Fixture.store
    (Fixture.ticket Fixture.flight 30 7 "first")
  = inl (ValidationError (NonField "Seat number must be between 1 and 6.")) ∧
  TicketSerializer_validate Fixture.booked
    (Fixture.ticket Fixture.flight 2 6 "first")
  = inl (ValidationError (Field "seat" seat_taken_msg)).
Proof.
  split_and!.
  - destruct (seat_map_is_enforced Fixture.store Fixture.flight 10 6
      (Some "first") None ltac:(lia) ltac:(lia)) as [Hfree _].
    destruct (Hfree eq_refl) as (Hok & _ & _).
    apply Hok; simpl; lia.
  - destruct (seat_map_is_enforced Fixture.store Fixture.flight 31 6
      (Some "first") None ltac:(lia) ltac:(lia)) as [Hfree _].
    destruct (Hfree eq_refl) as (_ & Hr & _).
    apply Hr; simpl; lia.
  - destruct (seat_map_is_enforced Fixture.store Fixture.flight 30 7
      (Some "first") None ltac:(lia) ltac:(lia)) as [Hfree _].
    destruct (Hfree eq_refl) as (_ & _ & Hs).
    apply Hs; simpl; lia.
  - destruct (seat_map_is_enforced Fixture.booked Fixture.flight 2 6
      (Some "first") None ltac:(lia) ltac:(lia)) as [_ Htaken].
    apply Htaken. vm_compute. discriminate.
Defined.

(** C6, as the claim has it, fails where the seat is out of range and
    sold: row 30 of a flight was booked, the flight now has an airplane
    of 20 rows, and a request for row 30 is told that the seat is
    taken, not that rows go from 1 to 20. *)
Lemma sold_seat_out_of_range_is_taken :
  reachable Fixture.refitted ∧
  rows (airplane Fixture.refitted_flight) = 20 ∧
  TicketSerializer_validate Fixture.refitted
    (Fixture.ticket Fixture.refitted_flight 30 6 "economy")
  = inl (ValidationError (Field "seat" seat_taken_msg)) ∧
  TicketSerializer_validate Fixture.refitted
    (Fixture.ticket Fixture.refitted_flight 30 6 "economy")
  ≠ inl (ValidationError
           (NonField (row_range_msg (airplane Fixture.refitted_flight)))).
Proof.
  split_and!; [| reflexivity | reflexivity | vm_compute; discriminate].
  eapply reachable_step; [eapply reachable_step|].
  - exact (reachable_empty [Fixture.flight; Fixture.flight2]).
  - exact (step_create 1000 Fixture.user Fixture.last_row Fixture.store).
  - exact (step_admin_flights [Fixture.refitted_flight; Fixture.flight2] _).
Qed.

(** Row 0 is not handled by the range test either: the test for missing
    values takes 0 for a missing value. *)
Example row_zero_is_reported_missing :
  TicketSerializer_validate Fixture.store
    (Fixture.ticket Fixture.flight 0 6 "first")
  = inl (ValidationError (NonField "Flight, row, and seat must be provided.")).
Proof. reflexivity. Qed.

(** ** Prices *)

Lemma price_mapping_other (class : string) :
  class ≠ "economy" -> class ≠ "business" -> class ≠ "first" ->
  price_mapping !! class = None.
Proof.
  intros He Hb Hf. unfold price_mapping.
  rewrite !lookup_insert_ne by done. by apply lookup_singleton_ne.
Qed.

Lemma ticket_of_price order ticket_data t :
  ticket_of order ticket_data t ->
  ticket_price t = default 100 (price_mapping !! ticket_class t).
Proof. intros (_ & _ & _ & -> & -> & _). reflexivity. Qed.

(** C7. The price is a total function of the ticket class: 100 for
    economy, 200 for business, 300 for first, and 100 for a class that
    is unknown or missing; every ticket that [create] stores carries
    the price of its class. *)
Theorem price_resolution (ticket_data : TicketData) :
  (data_ticket_class ticket_data = Some "economy" ->
   resolve_price ticket_data = 100) ∧
  (data_ticket_class ticket_data = Some "business" ->
   resolve_price ticket_data = 200) ∧
  (data_ticket_class ticket_data = Some "first" ->
   resolve_price ticket_data = 300) ∧
  (data_ticket_class ticket_data = None -> resolve_price ticket_data = 100) ∧
  (∀ class, data_ticket_class ticket_data = Some class ->
     class ≠ "economy" -> class ≠ "business" -> class ≠ "first" ->
     resolve_price ticket_data = 100) ∧
  (∀ now user validated_data s order s',
     OrderSerializer_create now user validated_data s = (inr order, s') ->
     ∃ new, ticket_table s' = ticket_table s ++ new ∧
            Forall (fun t => ticket_price t
                             = default 100 (price_mapping !! ticket_class t)) new).
Proof.
  unfold resolve_price. split_and!.
  - by intros ->.
  - by intros ->.
  - by intros ->.
  - by intros ->.
  - intros class -> He Hb Hf. simpl. by rewrite price_mapping_other.
  - intros now user validated_data s order s' Hc.
    apply OrderSerializer_create_inr in Hc.
    destruct Hc as (tickets_data & new & _ & _ & _ & Ht & _ & Hall & _).
    exists new. split; [done|].
    clear Ht. induction Hall as [|td t ? ? Hof _ IH]; constructor; [|done].
    by eapply ticket_of_price.
Qed.

Lemma price_resolution_witness :
  resolve_price (Fixture.ticket Fixture.flight 2 6 "first") = 300 ∧
  resolve_price (Fixture.ticket Fixture.flight 2 6 "premium") = 100 ∧
  ∃ new, ticket_table Fixture.booked = ticket_table Fixture.store ++ new ∧
         Forall (fun t => ticket_price t
                          = default 100 (price_mapping !! ticket_class t)) new.
Proof.
  split_and!.
  - destruct (price_resolution (Fixture.ticket Fixture.flight 2 6 "first"))
      as (_ & _ & Hfirst & _).
    by apply Hfirst.
  - destruct (price_resolution (Fixture.ticket Fixture.flight 2 6 "premium"))
      as (_ & _ & _ & _ & Hother & _).
    by apply (Hother "premium").
  - destruct (price_resolution (Fixture.ticket Fixture.flight 2 6 "first"))
      as (_ & _ & _ & _ & _ & Hcreated).
    apply (Hcreated 1000 Fixture.user
             {| data_tickets := initial_tickets Fixture.two_seats |}
             Fixture.store
             {| order_id := 1; created_at := 1000; order_user := 1 |}).
    reflexivity.
Defined.

(** ** Who sees which order *)

Lemma elem_of_distinct (o : Order) (queryset : list Order) :
  o ∈ distinct queryset ↔ o ∈ queryset.
Proof. apply elem_of_remove_dups. Qed.

(** C8. Listing and retrieving orders: a user without staff rights who
    is authenticated gets exactly the orders whose user he is, a staff
    user gets all orders; an order is retrieved by its key among these. *)
Theorem order_visibility (user : User) (s : Store) :
  (is_staff user = false -> is_authenticated user = true ->
   ∀ o, o ∈ get_queryset user s ↔
        o ∈ order_table s ∧ order_user o = user_id user) ∧
  (is_staff user = true ->
   ∀ o, o ∈ get_queryset user s ↔ o ∈ order_table s) ∧
  NoDup (get_queryset user s) ∧
  (∀ pk o, get_object user pk s = inr o ->
           o ∈ get_queryset user s ∧ order_id o = pk) ∧
  (∀ pk o, o ∈ get_queryset user s -> order_id o = pk ->
           ∃ o', get_object user pk s = inr o') ∧
  (∀ pk, (∀ o, o ∈ get_queryset user s -> order_id o ≠ pk) ->
         get_object user pk s = inl Http404).
Proof.
  split_and!.
  - intros Hstaff Hauth o. unfold get_queryset. rewrite Hstaff, Hauth. simpl.
    rewrite elem_of_distinct, list_elem_of_filter. tauto.
  - intros Hstaff o. unfold get_queryset. rewrite Hstaff. simpl.
    apply elem_of_distinct.
  - unfold get_queryset, distinct.
    destruct (is_staff user), (is_authenticated user); simpl;
      try apply NoDup_remove_dups. constructor.
  - intros pk o. unfold get_object.
    destruct (filter _ _) as [|o' l] eqn:Hfilter; [discriminate|].
    intros [= ->].
    assert (o ∈ filter (fun o => order_id o = pk) (get_queryset user s)) as Hin.
    { rewrite Hfilter. apply elem_of_cons. by left. }
    apply list_elem_of_filter in Hin. tauto.
  - intros pk o Hin Hpk. unfold get_object.
    destruct (filter _ _) as [|o' l] eqn:Hfilter; [|by exists o'].
    assert (o ∈ filter (fun o => order_id o = pk) (get_queryset user s)) as Hin'.
    { by apply list_elem_of_filter. }
    rewrite Hfilter in Hin'. by apply elem_of_nil in Hin'.
  - intros pk Hnone. unfold get_object.
    destruct (filter _ _) as [|o' l] eqn:Hfilter; [done|].
    assert (o' ∈ filter (fun o => order_id o = pk) (get_queryset user s)) as Hin.
    { rewrite Hfilter. apply elem_of_cons. by left. }
    apply list_elem_of_filter in Hin as [Hpk Hin]. by destruct (Hnone o' Hin).
Qed.

Lemma order_visibility_witness :
  (∀ o, o ∈ get_queryset Fixture.user Fixture.booked ↔
        o ∈ order_table Fixture.booked ∧ order_user o = 1) ∧
  (∀ o, o ∈ get_queryset Fixture.admin Fixture.booked ↔
        o ∈ order_table Fixture.booked) ∧
  (∃ o', get_object Fixture.user 1 Fixture.booked = inr o').
Proof.
  split_and!.
  - destruct (order_visibility Fixture.user Fixture.booked) as (Hown & _).
    exact (Hown eq_refl eq_refl).
  - destruct (order_visibility Fixture.admin Fixture.booked) as (_ & Hall & _).
    exact (Hall eq_refl).
  - destruct (order_visibility Fixture.user Fixture.booked)
      as (_ & _ & _ & _ & Hfound & _).
    apply (Hfound 1 {| order_id := 1; created_at := 1000; order_user := 1 |});
      [|reflexivity].
    vm_compute. apply elem_of_cons. by left.
Defined.

(** ** Flight times *)

(** C9. With both times present, a flight whose departure is in the
    past or whose arrival is not after its departure is rejected; one
    that departs in the future and arrives after its departure passes. *)
Theorem flight_times_are_checked (now departure arrival : datetime) :
  let data := {| data_departure_time := Some departure;
                 data_arrival_time := Some arrival |} in
  (timestamp arrival <= timestamp departure ->
   FlightSerializer_validate now data
   = inl (ValidationError (NonField arrival_msg))) ∧
  (timestamp departure < timestamp now ->
   ∃ msg, FlightSerializer_validate now data
          = inl (ValidationError (NonField msg)) ∧
          (timestamp departure < timestamp arrival -> msg = past_msg)) ∧
  (timestamp now < timestamp departure ->
   timestamp departure < timestamp arrival ->
   FlightSerializer_validate now data = inr data).
Proof.
  intros data. unfold FlightSerializer_validate, py_and, py_ge, py_lt, rbind.
  simpl. split_and!.
  - intros Hle.
    destruct (Z.geb_spec (timestamp departure) (timestamp arrival)); [done|lia].
  - intros Hpast.
    destruct (Z.geb_spec (timestamp departure) (timestamp arrival)).
    + exists arrival_msg. split; [done|lia].
    + exists past_msg.
      destruct (Z.ltb_spec (timestamp departure) (timestamp now)); [done|lia].
  - intros Hfuture Hbefore.
    destruct (Z.geb_spec (timestamp departure) (timestamp arrival)); [lia|].
    destruct (Z.ltb_spec (timestamp departure) (timestamp now)); [lia|done].
Qed.

Lemma flight_times_are_checked_witness :
  FlightSerializer_validate {| timestamp := 100 |}
    {| data_departure_time := Some {| timestamp := 200 |};
       data_arrival_time := Some {| timestamp := 200 |} |}
  = inl (ValidationError (NonField arrival_msg)) ∧
  (∃ msg, FlightSerializer_validate {| timestamp := 100 |}
            {| data_departure_time := Some {| timestamp := 50 |};
               data_arrival_time := Some {| timestamp := 70 |} |}
          = inl (ValidationError (NonField msg))) ∧
  FlightSerializer_validate {| timestamp := 100 |}
    {| data_departure_time := Some {| timestamp := 200 |};
       data_arrival_time := Some {| timestamp := 320 |} |}
  = inr {| data_departure_time := Some {| timestamp := 200 |};
           data_arrival_time := Some {| timestamp := 320 |} |}.
Proof.
  split_and!.
  - destruct (flight_times_are_checked {| timestamp := 100 |}
      {| timestamp := 200 |} {| timestamp := 200 |}) as (Harrival & _).
    apply Harrival. simpl. lia.
  - destruct (flight_times_are_checked {| timestamp := 100 |}
      {| timestamp := 50 |} {| timestamp := 70 |}) as (_ & Hpast & _).
    destruct Hpast as (msg & Hmsg & _); [simpl; lia|]. by exists msg.
  - destruct (flight_times_are_checked {| timestamp := 100 |}
      {| timestamp := 200 |} {| timestamp := 320 |}) as (_ & _ & Hok).
    apply Hok; simpl; lia.
Defined.

(** C10. Without a departure time, [FlightSerializer.validate] neither
    returns nor raises a [ValidationError]: the first test is skipped,
    and comparing [None] with the current time is a [TypeError]. *)
Theorem absent_departure_is_a_TypeError
    (now : datetime) (arrival : option datetime) :
  FlightSerializer_validate now
    {| data_departure_time := None; data_arrival_time := arrival |}
  = inl TypeError.
Proof. reflexivity. Qed.

(** * Further properties of the code *)

(** ** [TicketSerializer.validate], both ways *)

Lemma exists_filter_false s flight row seat :
  exists_ (Ticket_objects_filter s flight row seat) = false ->
  ∀ t, t ∈ ticket_table s ->
       ¬ (ticket_flight t = flight_id flight ∧ ticket_row t = row ∧
          ticket_seat t = seat).
Proof.
  unfold Ticket_objects_filter. intros Hnone t Hin (Hf & Hr & Hs).
  assert (t ∈ filter (fun t => seat_key t = (row, seat, flight_id flight))
                (ticket_table s)) as Hin'.
  { apply list_elem_of_filter. split; [|done]. unfold seat_key. congruence. }
  destruct (filter _ _); [by apply elem_of_nil in Hin' | discriminate].
Qed.

Lemma TicketSerializer_validate_inr_inv s data value :
  TicketSerializer_validate s data = inr value ->
  ∃ flight row seat,
    data_flight data = Some flight ∧ data_row data = Some row ∧
    data_seat data = Some seat ∧
    1 <= row <= rows (airplane flight) ∧
    1 <= seat <= seats_in_row (airplane flight) ∧
    ∀ t, t ∈ ticket_table s ->
         ¬ (ticket_flight t = flight_id flight ∧ ticket_row t = row ∧
            ticket_seat t = seat).
Proof.
  unfold TicketSerializer_validate, raise.
  destruct (negb _); [discriminate|].
  destruct (data_flight data) as [flight|], (data_row data) as [row|],
    (data_seat data) as [seat|]; try discriminate.
  destruct (exists_ _) eqn:Hfree; [discriminate|].
  destruct (Z.ltb_spec row 1), (Z.gtb_spec row (rows (airplane flight)));
    simpl; try discriminate.
  destruct (Z.ltb_spec seat 1), (Z.gtb_spec seat (seats_in_row (airplane flight)));
    simpl; try discriminate.
  intros _. exists flight, row, seat. split_and!; try done; try lia.
  by apply exists_filter_false.
Qed.

(** X1. What [TicketSerializer.validate] lets through is the data as it
    came, with a flight, a row and a seat, both within the airplane of
    the flight, on a seat that no stored ticket of the flight holds. *)
Theorem TicketSerializer_validate_sound
    (s : Store) (data value : TicketData) :
  TicketSerializer_validate s data = inr value ->
  value = data ∧
  ∃ flight row seat,
    data_flight data = Some flight ∧ data_row data = Some row ∧
    data_seat data = Some seat ∧
    1 <= row <= rows (airplane flight) ∧
    1 <= seat <= seats_in_row (airplane flight) ∧
    ∀ t, t ∈ ticket_table s ->
         ¬ (ticket_flight t = flight_id flight ∧ ticket_row t = row ∧
            ticket_seat t = seat).
Proof.
  intros Hv. split.
  - by eapply TicketSerializer_validate_inr.
  - by eapply TicketSerializer_validate_inr_inv.
Qed.

Lemma TicketSerializer_validate_sound_witness :
  ∃ flight row seat,
    data_flight (Fixture.ticket Fixture.flight 3 6 "economy") = Some flight ∧
    data_row (Fixture.ticket Fixture.flight 3 6 "economy") = Some row ∧
    data_seat (Fixture.ticket Fixture.flight 3 6 "economy") = Some seat ∧
    1 <= row <= rows (airplane flight) ∧
    1 <= seat <= seats_in_row (airplane flight) ∧
    ∀ t, t ∈ ticket_table Fixture.store ->
         ¬ (ticket_flight t = flight_id flight ∧ ticket_row t = row ∧
            ticket_seat t = seat).
Proof.
  exact (proj2 (TicketSerializer_validate_sound Fixture.store
                  (Fixture.ticket Fixture.flight 3 6 "economy")
                  (Fixture.ticket Fixture.flight 3 6 "economy") eq_refl)).
Defined.

(** X2. [TicketSerializer.validate] answers that flight, row and seat
    must be provided exactly when the flight, the row or the seat is
    missing, or the row or the seat is 0: the test for missing values
    is a test of truth, and 0 is false. *)
Theorem not_provided_iff_missing_or_zero (s : Store) (data : TicketData) :
  TicketSerializer_validate s data
  = inl (ValidationError (NonField not_provided_msg))
  ↔ data_flight data = None ∨
    data_row data = None ∨ data_row data = Some 0 ∨
    data_seat data = None ∨ data_seat data = Some 0.
Proof.
  unfold TicketSerializer_validate, raise, all, truthy, option_truthy, truthy,
    flight_truthy, int_truthy.
  destruct (data_flight data) as [flight|], (data_row data) as [row|],
    (data_seat data) as [seat|]; simpl;
    try (destruct (Z.eqb_spec row 0) as [->|Hrow]); simpl;
    try (destruct (Z.eqb_spec seat 0) as [->|Hseat]); simpl;
    try (split; [intros _; eauto 10 | reflexivity]).
  split.
  - destruct (exists_ _); [discriminate|].
    destruct (_ || _); [unfold row_range_msg; simpl; discriminate|].
    destruct (_ || _); [unfold seat_range_msg; simpl; discriminate|].
    discriminate.
  - intros [|[|[|[|]]]]; congruence.
Qed.

(** ** [OrderSerializer.validate] on an item without a flight *)

Lemma map_result_subscript_flight_inl tickets_data e :
  map_result subscript_flight tickets_data = inl e ->
  e = KeyError "flight" ∧ ∃ ticket, ticket ∈ tickets_data ∧ data_flight ticket = None.
Proof.
  induction tickets_data as [|ticket rest IH]; simpl; [discriminate|].
  unfold subscript_flight at 1, raise.
  destruct (data_flight ticket) as [flight|] eqn:Hf; simpl.
  - destruct (map_result subscript_flight rest) as [e'|flights]; simpl;
      [|discriminate].
    intros [= <-]. destruct (IH eq_refl) as [-> (t & Hin & Ht)].
    split; [done|]. exists t. split; [by apply elem_of_cons; right | done].
  - intros [= <-]. split; [done|].
    exists ticket. split; [by apply elem_of_cons; left | done].
Qed.

Lemma map_result_subscript_flight_inr tickets_data flights :
  map_result subscript_flight tickets_data = inr flights ->
  ∀ ticket, ticket ∈ tickets_data -> data_flight ticket ≠ None.
Proof.
  revert flights. induction tickets_data as [|ticket rest IH]; simpl.
  - intros _ _ t Hin. by apply elem_of_nil in Hin.
  - intros flights. unfold subscript_flight at 1, raise.
    destruct (data_flight ticket) as [flight|] eqn:Hf; simpl; [|discriminate].
    destruct (map_result subscript_flight rest) as [e'|flights'] eqn:Hrest;
      simpl; [discriminate|].
    intros _ t [->|Hin]%elem_of_cons; [congruence|]. by eapply IH.
Qed.

(** X3. [OrderSerializer.validate] subscripts the flight of every item:
    it ends in a [KeyError], which is no validation error, exactly when
    an item of the ticket list has no flight. *)
Theorem missing_flight_is_a_KeyError (tickets_data : list TicketData) :
  OrderSerializer_validate {| data_tickets := Some tickets_data |}
  = inl (KeyError "flight")
  ↔ ∃ ticket, ticket ∈ tickets_data ∧ data_flight ticket = None.
Proof.
  unfold OrderSerializer_validate, rbind, raise. simpl.
  destruct tickets_data as [|ticket rest].
  { simpl. split; [discriminate|]. intros (t & Hin & _).
    by apply elem_of_nil in Hin. }
  unfold truthy, option_truthy, truthy, list_truthy.
  destruct (map_result subscript_flight (ticket :: rest)) as [e|flights] eqn:Hm.
  - apply map_result_subscript_flight_inl in Hm as [-> Hex]. done.
  - split.
    + case_bool_decide; discriminate.
    + intros (t & Hin & Ht).
      by destruct (map_result_subscript_flight_inr _ _ Hm t Hin).
Qed.

(** ** [FlightSerializer.validate], both ways *)

(** X4. [FlightSerializer.validate] accepts exactly the data with a
    departure time that is not before the current time and, when there
    is an arrival time, is before it. A flight that departs this very
    moment passes, and so does one without an arrival time. *)
Theorem FlightSerializer_validate_accepts (now : datetime) (data : FlightData) :
  FlightSerializer_validate now data = inr data
  ↔ ∃ departure,
      data_departure_time data = Some departure ∧
      timestamp now <= timestamp departure ∧
      ∀ arrival, data_arrival_time data = Some arrival ->
                 timestamp departure < timestamp arrival.
Proof.
  unfold FlightSerializer_validate, py_and, py_ge, py_lt, rbind, raise,
    truthy, option_truthy, truthy, datetime_truthy.
  destruct (data_departure_time data) as [departure|]; simpl.
  2: { split; [discriminate | intros (? & [=] & _)]. }
  destruct (data_arrival_time data) as [arrival|]; simpl.
  - destruct (Z.geb_spec (timestamp departure) (timestamp arrival)).
    + split; [discriminate|]. intros (d & [= <-] & _ & Harr).
      specialize (Harr _ eq_refl). lia.
    + destruct (Z.ltb_spec (timestamp departure) (timestamp now)).
      * split; [discriminate|]. intros (d & [= <-] & ? & _). lia.
      * split; [intros _|done]. exists departure. split_and!; try done.
        intros a [= <-]. lia.
  - destruct (Z.ltb_spec (timestamp departure) (timestamp now)).
    + split; [discriminate|]. intros (d & [= <-] & ? & _). lia.
    + split; [intros _|done]. exists departure. split_and!; try done.
Qed.

(** ** [RouteSerializer.validate] *)

Lemma Airport_eq_true (a b : option Airport) :
  truthy b && truthy a && Airport_eq a b = true
  ↔ ∃ x y, a = Some x ∧ b = Some y ∧ airport_id x = airport_id y.
Proof.
  destruct a as [x|], b as [y|]; simpl.
  - unfold truthy, option_truthy, truthy, airport_truthy. simpl.
    rewrite Z.eqb_eq. split; [by exists x, y | intros (? & ? & [= <-] & [= <-] & ?); done].
  - split; [done | intros (? & ? & _ & [=] & _)].
  - split; [done | intros (? & ? & [=] & _)].
  - split; [done | intros (? & ? & [=] & _)].
Qed.

(** X5. [RouteSerializer.validate] compares the source and the
    destination in effect, each taken from the data and, where its key
    is absent, from the route under update: it raises exactly when both
    are there and are the same airport, and else returns the data. *)
Theorem RouteSerializer_validate_rejects_iff
    (instance : option Route) (data : RouteData) :
  let source_ := get_or_instance (data_source data) instance source in
  let destination_ :=
    get_or_instance (data_destination data) instance destination in
  (RouteSerializer_validate instance data
   = inl (ValidationError (NonField must_differ_msg))
   ↔ ∃ a b, source_ = Some a ∧ destination_ = Some b ∧
            airport_id a = airport_id b) ∧
  (RouteSerializer_validate instance data = inr data
   ↔ ¬ ∃ a b, source_ = Some a ∧ destination_ = Some b ∧
              airport_id a = airport_id b).
Proof.
  intros source_ destination_. unfold RouteSerializer_validate, raise.
  fold source_ destination_.
  pose proof (Airport_eq_true source_ destination_) as Heq.
  destruct (truthy destination_ && truthy source_ && Airport_eq source_ destination_).
  - split; [split; [intros _; by apply Heq | done]|].
    split; [discriminate|]. intros Hnot. destruct Hnot. by apply Heq.
  - split; [split; [discriminate|]|].
    + intros Hex. apply Heq in Hex. discriminate.
    + split; [intros _ Hex|done]. apply Heq in Hex. discriminate.
Qed.

(** X6. No route that has passed [RouteSerializer.validate] starts and
    ends at one airport: neither the route made of the data of a
    creation, nor the route that an update leaves, whatever keys the
    update names and whatever the route was before. *)
Theorem accepted_route_is_no_loop (data : RouteData) :
  (∀ a b, RouteSerializer_validate None data = inr data ->
          data_source data = Some a -> data_destination data = Some b ->
          airport_id a ≠ airport_id b) ∧
  (∀ instance, RouteSerializer_validate (Some instance) data = inr data ->
               airport_id (source (Route_update instance data))
               ≠ airport_id (destination (Route_update instance data))).
Proof.
  split.
  - intros a b Hv Ha Hb Hab. unfold RouteSerializer_validate in Hv.
    rewrite Ha, Hb in Hv. simpl in Hv.
    unfold truthy, option_truthy, truthy, airport_truthy in Hv. simpl in Hv.
    apply Z.eqb_eq in Hab. rewrite Hab in Hv. discriminate.
  - intros instance Hv Hab. unfold RouteSerializer_validate in Hv.
    unfold Route_update in Hab. simpl in Hab.
    destruct (data_source data) as [a|], (data_destination data) as [b|];
      simpl in *;
      unfold truthy, option_truthy, truthy, airport_truthy in Hv; simpl in Hv;
      apply Z.eqb_eq in Hab; rewrite Hab in Hv; discriminate.
Qed.

Lemma accepted_route_is_no_loop_witness :
  airport_id Reference.boryspil ≠ airport_id Reference.zhuliany ∧
  airport_id (source (Route_update Reference.route
                        {| data_source := None;
                           data_destination := Some Reference.zhuliany |}))
  ≠ airport_id (destination (Route_update Reference.route
                               {| data_source := None;
                                  data_destination := Some Reference.zhuliany |})).
Proof.
  split.
  - apply (proj1 (accepted_route_is_no_loop
                    {| data_source := Some Reference.boryspil;
                       data_destination := Some Reference.zhuliany |})
             Reference.boryspil Reference.zhuliany); reflexivity.
  - apply (proj2 (accepted_route_is_no_loop
                    {| data_source := None;
                       data_destination := Some Reference.zhuliany |})
             Reference.route). reflexivity.
Defined.

(** A partial update that would close the loop is turned down: the new
    destination is held against the source the route has. *)
Example partial_update_closing_the_loop :
  RouteSerializer_validate (Some Reference.route)
    {| data_source := None; data_destination := Some Reference.boryspil |}
  = inl (ValidationError (NonField must_differ_msg)).
Proof. reflexivity. Qed.

(** ** The searches *)

Section searches.
Variable icontains : string -> string -> bool.

Lemma truthy_param (p : option string) :
  truthy p = true ↔ ∃ v, p = Some v ∧ v ≠ "".
Proof.
  destruct p as [[|c v]|]; simpl.
  - split; [done | intros (? & [= <-] & ?); done].
  - split; [intros _; by eexists | done].
  - split; [done | intros (? & [=] & _)].
Qed.

(** One step of a search: the filter applies when its parameter is
    there and not empty. *)
Lemma elem_of_optional_filter {A} (P : string -> A -> bool)
    (p : option string) (l : list A) (x : A) :
  x ∈ (if truthy p then filter (fun y => P (default "" p) y) l else l)
  ↔ x ∈ l ∧ ∀ v, p = Some v -> v ≠ "" -> P v x.
Proof.
  destruct (truthy p) eqn:Hp.
  - apply truthy_param in Hp as (v & -> & Hv). simpl.
    rewrite list_elem_of_filter. split.
    + intros [HP Hin]. split; [done|]. by intros ? [= <-] _.
    + intros [Hin HP]. split; [|done]. by apply HP.
  - split; [|tauto]. intros Hin. split; [done|].
    intros v -> Hv.
    assert (truthy (Some v) = true) as Ht by (apply truthy_param; by exists v).
    congruence.
Qed.

Lemma sublist_optional_filter {A} (P : string -> A -> bool)
    (p : option string) (l : list A) :
  (if truthy p then filter (fun y => P (default "" p) y) l else l)
  `sublist_of` l.
Proof. destruct (truthy p); [apply sublist_filter | done]. Qed.

(** X7. The crew search keeps the rows of the table, in their order,
    that match every parameter that is given and not empty: the first
    name contains [first], the last name contains [last], and the first
    or the last name contains [full_name]. Parameters that are absent
    or empty select nothing away. *)
Theorem crew_search (request_GET : CrewParams) (table : list Crew) :
  CrewViewSet_get_queryset icontains request_GET table `sublist_of` table ∧
  ∀ c, c ∈ CrewViewSet_get_queryset icontains request_GET table
       ↔ c ∈ table ∧
         (∀ v, GET_full_name request_GET = Some v -> v ≠ "" ->
               icontains (first_name c) v ∨ icontains (last_name c) v) ∧
         (∀ v, GET_first request_GET = Some v -> v ≠ "" ->
               icontains (first_name c) v) ∧
         (∀ v, GET_last request_GET = Some v -> v ≠ "" ->
               icontains (last_name c) v).
Proof.
  unfold CrewViewSet_get_queryset. split.
  - etrans; [apply (sublist_optional_filter
                      (fun v c => icontains (last_name c) v))|].
    etrans; [apply (sublist_optional_filter
                      (fun v c => icontains (first_name c) v))|].
    apply (sublist_optional_filter
             (fun v c => icontains (first_name c) v || icontains (last_name c) v)).
  - intros c.
    rewrite (elem_of_optional_filter (fun v c => icontains (last_name c) v)).
    rewrite (elem_of_optional_filter (fun v c => icontains (first_name c) v)).
    rewrite (elem_of_optional_filter
               (fun v c => icontains (first_name c) v || icontains (last_name c) v)).
    split.
    + intros [[[Hin Hfull] Hfirst] Hlast]. split_and!; try done.
      intros v Hv Hne. specialize (Hfull v Hv Hne).
      apply orb_prop_elim in Hfull. done.
    + intros (Hin & Hfull & Hfirst & Hlast). split_and!; try done.
      intros v Hv Hne. apply orb_prop_intro. by apply Hfull.
Qed.

(** X8. The route search keeps the routes, in their order, whose
    destination airport has a name that contains [destination] and whose
    source airport has a name that contains [source], each test made
    only for a parameter that is given and not empty. *)
Theorem route_search (query_params : RouteParams) (table : list Route) :
  RouteViewSet_get_queryset icontains query_params table `sublist_of` table ∧
  ∀ r, r ∈ RouteViewSet_get_queryset icontains query_params table
       ↔ r ∈ table ∧
         (∀ v, query_destination query_params = Some v -> v ≠ "" ->
               icontains (airport_name (destination r)) v) ∧
         (∀ v, query_source query_params = Some v -> v ≠ "" ->
               icontains (airport_name (source r)) v).
Proof.
  unfold RouteViewSet_get_queryset. split.
  - etrans; [apply (sublist_optional_filter
                      (fun v r => icontains (airport_name (source r)) v))|].
    apply (sublist_optional_filter
             (fun v r => icontains (airport_name (destination r)) v)).
  - intros r.
    rewrite (elem_of_optional_filter
               (fun v r => icontains (airport_name (source r)) v)).
    rewrite (elem_of_optional_filter
               (fun v r => icontains (airport_name (destination r)) v)).
    tauto.
Qed.

(** X9. The flight search by route and the route search agree: for a
    value that is not empty, [filter_route] keeps the flights whose
    route the route search finds under that value as source or finds
    under it as destination. *)
Theorem filter_route_agrees_with_route_search
    (flights : list ScheduledFlight) (routes : list Route) (value : string) :
  value ≠ "" ->
  Forall (fun f => flight_route f ∈ routes) flights ->
  ∀ f, f ∈ filter_route icontains flights value
       ↔ f ∈ flights ∧
         (flight_route f ∈ RouteViewSet_get_queryset icontains
            {| query_destination := None; query_source := Some value |} routes
          ∨ flight_route f ∈ RouteViewSet_get_queryset icontains
              {| query_destination := Some value; query_source := None |} routes).
Proof.
  intros Hvalue Hroutes f. unfold filter_route.
  rewrite list_elem_of_filter. rewrite Forall_forall in Hroutes.
  destruct (route_search {| query_destination := None;
                              query_source := Some value |} routes)
    as [_ Hsource].
  destruct (route_search {| query_destination := Some value;
                              query_source := None |} routes)
    as [_ Hdestination].
  rewrite Hsource, Hdestination. simpl. split.
  - intros [Hmatch Hin]. split; [done|].
    apply orb_prop_elim in Hmatch as [Hs|Hd].
    + left. split_and!; [by apply Hroutes | done | by intros ? [= <-] _].
    + right. split_and!; [by apply Hroutes | by intros ? [= <-] _ | done].
  - intros [Hin [(_ & _ & Hs)|(_ & Hd & _)]]; (split; [|done]);
      apply orb_prop_intro; [left; by apply Hs | right; by apply Hd].
Qed.

End searches.

Lemma filter_route_agrees_with_route_search_witness :
  {| scheduled := Fixture.flight; flight_route := Reference.route |}
  ∈ filter_route Reference.contains
      [{| scheduled := Fixture.flight; flight_route := Reference.route |};
       {| scheduled := Fixture.flight2; flight_route := Reference.way_back |}]
      "Bory".
Proof.
  apply (filter_route_agrees_with_route_search Reference.contains
           [{| scheduled := Fixture.flight; flight_route := Reference.route |};
            {| scheduled := Fixture.flight2; flight_route := Reference.way_back |}]
           [Reference.route; Reference.way_back] "Bory").
  - discriminate.
  - repeat constructor.
  - split; [by constructor|]. left. vm_compute. by constructor.
Defined.

(** ** When a validated booking gets through *)

Lemma resolve_price_nonneg (ticket_data : TicketData) :
  0 <= resolve_price ticket_data.
Proof.
  unfold resolve_price.
  set (class := default "economy" (data_ticket_class ticket_data)).
  destruct (decide (class = "economy")) as [->|He]; [done|].
  destruct (decide (class = "business")) as [->|Hb]; [done|].
  destruct (decide (class = "first")) as [->|Hf]; [done|].
  by rewrite price_mapping_other.
Qed.

Lemma create_ticket_free order ticket_data s flight row seat :
  data_flight ticket_data = Some flight ->
  data_row ticket_data = Some row ->
  data_seat ticket_data = Some seat ->
  0 <= row -> 0 <= seat ->
  (row, seat, flight_id flight) ∉ (seat_key <$> ticket_table s) ->
  ∃ t s', create_ticket order ticket_data s = (inr tt, s') ∧
          ticket_table s' = ticket_table s ++ [t] ∧
          seat_key t = (row, seat, flight_id flight).
Proof.
  intros Hf Hr Hs Hrow Hseat Hfree.
  unfold create_ticket, db_bind, Ticket_objects_create, set_price. simpl.
  rewrite Hf, Hr, Hs.
  pose proof (resolve_price_nonneg ticket_data) as Hprice.
  destruct (Z.ltb_spec row 0); [lia|].
  destruct (Z.ltb_spec seat 0); [lia|].
  destruct (Z.ltb_spec (resolve_price ticket_data) 0); [lia|]. simpl.
  rewrite bool_decide_eq_false_2 by done.
  eexists _, _. split; [reflexivity|]. done.
Qed.

Lemma for_each_create_free order tickets_data s :
  Forall (insertable s) tickets_data ->
  NoDup (request_key <$> tickets_data) ->
  ∃ s', for_each (create_ticket order) tickets_data s = (inr tt, s').
Proof.
  revert s. induction tickets_data as [|ticket_data rest IH]; intros s; simpl.
  - intros _ _. by eexists.
  - intros [Hhead Hrest]%Forall_cons [Hnew Hnodup]%NoDup_cons.
    destruct Hhead as (flight & row & seat & Hf & Hr & Hs & Hrow & Hseat & Hfree).
    destruct (create_ticket_free order ticket_data s flight row seat)
      as (t & s0 & Hc & Ht & Hkey); try done.
    unfold db_bind. rewrite Hc. apply IH; [|done].
    rewrite Forall_forall in Hrest |- *. intros td Hin.
    destruct (Hrest td Hin)
      as (f' & r' & s'' & Hf' & Hr' & Hs' & Hrow' & Hseat' & Hfree').
    exists f', r', s''. split_and!; try done.
    rewrite Ht, fmap_app. intros [Hold|Hhere]%elem_of_app; [done|].
    apply list_elem_of_singleton in Hhere. rewrite Hkey in Hhere.
    apply Hnew. apply list_elem_of_fmap. exists td. split; [|done].
    unfold request_key. rewrite Hf, Hr, Hs, Hf', Hr', Hs'. simpl.
    by injection Hhere as -> -> ->.
Qed.

Lemma validated_is_insertable s ticket_data :
  TicketSerializer_validate s ticket_data = inr ticket_data ->
  insertable s ticket_data.
Proof.
  intros Hv. apply TicketSerializer_validate_inr_inv in Hv.
  destruct Hv as (flight & row & seat & Hf & Hr & Hs & Hrow & Hseat & Hfree).
  exists flight, row, seat. split_and!; try done; try lia.
  intros (t & Hkey & Hin)%list_elem_of_fmap. apply (Hfree t Hin).
  unfold seat_key in Hkey. by injection Hkey as -> -> ->.
Qed.

Lemma OrderSerializer_create_free now user tickets_data s :
  Forall (fun item => TicketSerializer_validate s item = inr item) tickets_data ->
  NoDup (request_key <$> tickets_data) ->
  ∃ order s',
    OrderSerializer_create now user {| data_tickets := Some tickets_data |} s
    = (inr order, s').
Proof.
  intros Hvalid Hnodup.
  unfold OrderSerializer_create, transaction_atomic, db_bind,
    Order_objects_create. simpl.
  match goal with |- context [for_each ?b ?l ?s0] =>
    destruct (for_each_create_free
                {| order_id := next_order_id s; created_at := now;
                   order_user := user_id user |} tickets_data s0) as [s1 Hloop]
  end; [| done | rewrite Hloop; by eexists _, _].
  eapply Forall_impl; [exact Hvalid|]. intros td Htd.
  by apply validated_is_insertable in Htd.
Qed.

(** X10. Once validation has passed, the creation of the order gets
    through exactly when no two items of the ticket list ask for the
    same seat of the same flight: nothing else can fail after
    validation, and this is the one case validation does not see. *)
Theorem validated_booking_succeeds_iff
    (now : Z) (user : User) (initial : OrderInput)
    (tickets_data : list TicketData) (s : Store) :
  OrderSerializer_run_validation s initial
  = inr {| data_tickets := Some tickets_data |} ->
  (∃ order s', OrderViewSet_create now user initial s = (inr order, s'))
  ↔ NoDup (request_key <$> tickets_data).
Proof.
  intros Hv. unfold OrderViewSet_create. rewrite Hv.
  apply OrderSerializer_run_validation_inr in Hv
    as (tds & _ & [= <-] & Hvalid).
  split.
  - intros (order & s' & Hc). apply OrderSerializer_create_inr in Hc.
    destruct Hc as (tds' & new & [= <-] & _ & _ & _ & _ & Hall & Hnodup & _).
    rewrite (stored_request_keys _ _ _ Hall). by apply (NoDup_fmap_2 some_key).
  - intros Hnodup. by apply OrderSerializer_create_free.
Qed.

Lemma validated_booking_succeeds_iff_witness :
  (∃ order s', OrderViewSet_create 1000 Fixture.user Fixture.two_seats
                 Fixture.store = (inr order, s'))
  ↔ NoDup (request_key <$> [Fixture.ticket Fixture.flight 2 6 "first";
                            Fixture.ticket Fixture.flight 3 6 "economy"]).
Proof.
  exact (validated_booking_succeeds_iff 1000 Fixture.user Fixture.two_seats
           [Fixture.ticket Fixture.flight 2 6 "first";
            Fixture.ticket Fixture.flight 3 6 "economy"]
           Fixture.store eq_refl).
Defined.

(** ** A booked seat is a taken seat *)

Lemma TicketSerializer_validate_taken s data flight row seat t :
  data_flight data = Some flight ->
  data_row data = Some row ->
  data_seat data = Some seat ->
  row ≠ 0 -> seat ≠ 0 ->
  t ∈ ticket_table s ->
  seat_key t = (row, seat, flight_id flight) ->
  TicketSerializer_validate s data
  = inl (ValidationError (Field "seat" seat_taken_msg)).
Proof.
  intros Hf Hr Hs Hrow Hseat Hin Hkey.
  unfold TicketSerializer_validate. rewrite Hf, Hr, Hs.
  unfold all, truthy, option_truthy, truthy, flight_truthy, int_truthy. simpl.
  destruct (Z.eqb_spec row 0); [done|].
  destruct (Z.eqb_spec seat 0); [done|]. simpl.
  assert (t ∈ Ticket_objects_filter s flight row seat) as Hin'.
  { unfold Ticket_objects_filter. by apply list_elem_of_filter. }
  destruct (Ticket_objects_filter s flight row seat);
    [by apply elem_of_nil in Hin' | done].
Qed.

Lemma Forall2_ticket_of_elem order tickets_data new ticket_data :
  Forall2 (ticket_of order) tickets_data new ->
  ticket_data ∈ tickets_data ->
  ∃ t, t ∈ new ∧ ticket_of order ticket_data t.
Proof.
  induction 1 as [|td t ? ? Hof _ IH].
  - intros Hin. by apply elem_of_nil in Hin.
  - intros [->|Hin]%elem_of_cons.
    + exists t. split; [by apply elem_of_cons; left | done].
    + destruct (IH Hin) as (t' & Hin' & Hof').
      exists t'. split; [by apply elem_of_cons; right | done].
Qed.

(** X11. Booking and validation fit together: once the creation of an
    order has got through, every later ticket request for a seat of
    that order, whatever its class, is turned down by
    [TicketSerializer.validate] as taken. *)
Theorem booked_seat_is_taken
    (now : Z) (user : User) (initial : OrderInput)
    (tickets_data : list TicketData) (s s' : Store) (order : Order) :
  initial_tickets initial = Some tickets_data ->
  OrderViewSet_create now user initial s = (inr order, s') ->
  ∀ ticket_data later,
    ticket_data ∈ tickets_data ->
    request_key later = request_key ticket_data ->
    TicketSerializer_validate s' later
    = inl (ValidationError (Field "seat" seat_taken_msg)).
Proof.
  intros Hinit Hc ticket_data later Hin Hkey.
  unfold OrderViewSet_create in Hc.
  destruct (OrderSerializer_run_validation s initial) as [e|value] eqn:Hv;
    [discriminate|].
  apply OrderSerializer_run_validation_inr in Hv as (tds & Htds & -> & Hvalid).
  rewrite Hinit in Htds. injection Htds as <-.
  apply OrderSerializer_create_inr in Hc.
  destruct Hc as (tds' & new & [= <-] & _ & _ & Ht & _ & Hall & _).
  destruct (Forall2_ticket_of_elem _ _ _ _ Hall Hin) as (t & Hnew & Hof).
  rewrite Forall_forall in Hvalid.
  destruct (TicketSerializer_validate_inr_inv _ _ _ (Hvalid _ Hin))
    as (flight & row & seat & Hf & Hr & Hs & Hrow & Hseat & _).
  destruct Hof as (Hr' & Hs' & Hf' & _).
  rewrite Hr in Hr'. rewrite Hs in Hs'. rewrite Hf in Hf'. simpl in Hf'.
  injection Hr' as Hr'. injection Hs' as Hs'. injection Hf' as Hf'.
  unfold request_key in Hkey. rewrite Hf, Hr, Hs in Hkey. simpl in Hkey.
  injection Hkey as Hlr Hls Hlf.
  destruct (data_flight later) as [flight'|] eqn:Hlf'; [|discriminate].
  simpl in Hlf. injection Hlf as Hlf.
  apply (TicketSerializer_validate_taken s' later flight' row seat t);
    try done; try lia.
  - rewrite Ht. apply elem_of_app. by right.
  - unfold seat_key. congruence.
Qed.

Lemma booked_seat_is_taken_witness :
  TicketSerializer_validate Fixture.booked
    (Fixture.ticket Fixture.flight 3 6 "business")
  = inl (ValidationError (Field "seat" seat_taken_msg)).
Proof.
  apply (booked_seat_is_taken 1000 Fixture.user Fixture.two_seats
           [Fixture.ticket Fixture.flight 2 6 "first";
            Fixture.ticket Fixture.flight 3 6 "economy"]
           Fixture.store Fixture.booked
           {| order_id := 1; created_at := 1000; order_user := 1 |}
           eq_refl eq_refl
           (Fixture.ticket Fixture.flight 3 6 "economy")).
  - apply elem_of_cons. right. apply elem_of_cons. by left.
  - reflexivity.
Defined.

(** ** Orders and their keys *)

Lemma OrderSerializer_create_inr_ids now user validated_data s order s' :
  OrderSerializer_create now user validated_data s = (inr order, s') ->
  order_table s' = order_table s ++ [order] ∧
  next_order_id s' = next_order_id s + 1 ∧
  order_id order = next_order_id s ∧
  order_user order = user_id user.
Proof.
  unfold OrderSerializer_create.
  destruct (data_tickets validated_data) as [tickets_data|]; [|discriminate].
  unfold transaction_atomic, db_bind, Order_objects_create.
  match goal with |- context [for_each ?b ?l ?s0] =>
    destruct (for_each b l s0) as [[e0|[]] s1] eqn:Hloop end;
    [discriminate|].
  intros [= <- <-]. apply for_each_create_inr in Hloop. simpl in Hloop.
  destruct Hloop as (new & _ & Ho & _ & Hn & _). by rewrite Ho, Hn.
Qed.

Lemma order_ids_fresh_snoc s s' order :
  order_table s' = order_table s ++ [order] ->
  next_order_id s' = next_order_id s + 1 ->
  order_id order = next_order_id s ->
  order_ids_fresh s -> order_ids_fresh s'.
Proof.
  intros Ho Hn Hid [Hids Hbelow]. unfold order_ids_fresh. rewrite Ho, Hn.
  split.
  - apply NoDup_fmap_snoc; [done|].
    intros (o & Heq & Hin)%list_elem_of_fmap.
    rewrite Forall_forall in Hbelow. specialize (Hbelow _ Hin). lia.
  - apply Forall_app. split.
    + eapply Forall_impl; [exact Hbelow|]. simpl. intros; lia.
    + apply Forall_singleton. lia.
Qed.

Lemma order_ids_fresh_same s s' :
  order_table s' = order_table s ->
  next_order_id s' = next_order_id s ->
  order_ids_fresh s -> order_ids_fresh s'.
Proof. unfold order_ids_fresh. by intros -> ->. Qed.

Lemma order_ids_fresh_step s s' :
  order_ids_fresh s -> step s s' -> order_ids_fresh s'.
Proof.
  intros Hs Hstep. destruct Hstep as
    [now user initial s|user pk s|order ticket_data s|pk row seat flight s
    |pk s|pk s|fs s].
  - unfold OrderViewSet_create.
    destruct (OrderSerializer_run_validation s initial); [done|].
    destruct (OrderSerializer_create now user o s) as [[e|order] s'] eqn:Hc.
    + by apply OrderSerializer_create_inl in Hc as ->.
    + apply OrderSerializer_create_inr_ids in Hc as (? & ? & ? & _). simpl.
      by eapply order_ids_fresh_snoc.
  - unfold OrderViewSet_destroy.
    destruct (get_object user pk s) as [e|order]; [done|]. simpl.
    destruct Hs as [Hids Hbelow]. split; simpl.
    + by apply NoDup_fmap_filter.
    + rewrite Forall_forall in Hbelow |- *.
      intros o [_ Hin]%list_elem_of_filter. by apply Hbelow.
  - destruct (Ticket_objects_create order ticket_data s) as [[e|t] s'] eqn:Hc.
    + by apply Ticket_objects_create_inl in Hc as [_ ->].
    + apply Ticket_objects_create_inr in Hc as (_ & ? & _ & ? & _). simpl.
      by eapply order_ids_fresh_same.
  - unfold Ticket_update. by repeat case_match.
  - done.
  - done.
  - done.
Qed.

Lemma order_ids_fresh_reachable s : reachable s -> order_ids_fresh s.
Proof.
  induction 1 as [fs|s s' _ IH Hstep].
  - split; simpl; constructor.
  - by eapply order_ids_fresh_step.
Qed.

(** A list without repetition that holds [x] and nothing else. *)
Lemma NoDup_all_eq {A} (l : list A) (x : A) :
  NoDup l -> x ∈ l -> (∀ y, y ∈ l -> y = x) -> l = [x].
Proof.
  intros Hnodup Hin Hall. destruct l as [|a [|b l]].
  - by apply elem_of_nil in Hin.
  - f_equal. apply Hall, elem_of_cons. by left.
  - apply NoDup_cons in Hnodup as [Hnot _]. destruct Hnot.
    rewrite (Hall a) by (apply elem_of_cons; by left).
    rewrite <- (Hall b) by (apply elem_of_cons; right; apply elem_of_cons; by left).
    apply elem_of_cons. by left.
Qed.

Lemma elem_of_get_queryset user s o :
  o ∈ get_queryset user s
  ↔ o ∈ order_table s ∧
    (is_staff user = true ∨
     (is_authenticated user = true ∧ order_user o = user_id user)).
Proof.
  unfold get_queryset.
  destruct (is_staff user), (is_authenticated user); simpl.
  - rewrite elem_of_distinct.
    split; [intros ?; split; [done | by left] | by intros [? _]].
  - rewrite elem_of_distinct.
    split; [intros ?; split; [done | by left] | by intros [? _]].
  - rewrite elem_of_distinct, list_elem_of_filter.
    split; [intros [? ?]; split; [done | by right]
           | intros [? [[=]|[_ ?]]]; done].
  - rewrite elem_of_nil. split; [done | intros [_ [[=]|[[=] _]]]].
Qed.

Lemma NoDup_get_queryset user s : NoDup (get_queryset user s).
Proof.
  unfold get_queryset, distinct.
  destruct (is_staff user), (is_authenticated user); simpl;
    try apply NoDup_remove_dups. constructor.
Qed.

(** The order under a key, when the requester may see it and no other
    order has the key. *)
Lemma get_object_found user pk s o :
  o ∈ get_queryset user s -> order_id o = pk ->
  (∀ o', o' ∈ order_table s -> order_id o' = pk -> o' = o) ->
  get_object user pk s = inr o.
Proof.
  intros Hin Hpk Huniq. unfold get_object.
  rewrite (NoDup_all_eq (filter (fun o => order_id o = pk) (get_queryset user s)) o).
  - done.
  - apply NoDup_filter, NoDup_get_queryset.
  - by apply list_elem_of_filter.
  - intros o' [Hpk' Hin']%list_elem_of_filter.
    apply Huniq; [|done]. by apply elem_of_get_queryset in Hin' as [? _].
Qed.

Lemma get_object_not_found user pk s :
  (∀ o, o ∈ get_queryset user s -> order_id o ≠ pk) ->
  get_object user pk s = inl Http404.
Proof.
  intros Hnone. unfold get_object.
  destruct (filter _ _) as [|o' l] eqn:Hfilter; [done|].
  assert (o' ∈ filter (fun o => order_id o = pk) (get_queryset user s)) as Hin.
  { rewrite Hfilter. apply elem_of_cons. by left. }
  apply list_elem_of_filter in Hin as [Hpk Hin]. by destruct (Hnone o' Hin).
Qed.

(** The one order of [order_table s ++ [order]] under a fresh key. *)
Lemma fresh_order_unique s s' order :
  order_ids_fresh s ->
  order_table s' = order_table s ++ [order] ->
  order_id order = next_order_id s ->
  ∀ o', o' ∈ order_table s' -> order_id o' = order_id order -> o' = order.
Proof.
  intros [_ Hbelow] Ho Hid o'. rewrite Ho.
  intros [Hold|Hnew%list_elem_of_singleton]%elem_of_app Heq; [|done].
  rewrite Forall_forall in Hbelow. specialize (Hbelow _ Hold). lia.
Qed.

(** X12. Creating and retrieving fit together: in a store that can be
    reached, the order that a user has just created is the one that
    retrieval by its key gives back to that user, and to a staff user;
    a user without staff rights and with another id gets a 404. *)
Theorem created_order_is_retrieved
    (now : Z) (user : User) (initial : OrderInput) (s s' : Store)
    (order : Order) :
  reachable s ->
  OrderViewSet_create now user initial s = (inr order, s') ->
  (is_authenticated user = true -> get_object user (order_id order) s' = inr order) ∧
  (∀ staff, is_staff staff = true ->
            get_object staff (order_id order) s' = inr order) ∧
  (∀ other, is_staff other = false -> user_id other ≠ user_id user ->
            get_object other (order_id order) s' = inl Http404).
Proof.
  intros Hreach%order_ids_fresh_reachable Hc. unfold OrderViewSet_create in Hc.
  destruct (OrderSerializer_run_validation s initial) as [e|value];
    [discriminate|].
  apply OrderSerializer_create_inr_ids in Hc as (Ho & Hn & Hid & Huser).
  pose proof (fresh_order_unique s s' order Hreach Ho Hid) as Huniq.
  assert (order ∈ order_table s') as Hin.
  { rewrite Ho. apply elem_of_app. right. by apply list_elem_of_singleton. }
  split_and!.
  - intros Hauth. apply get_object_found; try done.
    apply elem_of_get_queryset. split; [done|]. by right.
  - intros staff Hstaff. apply get_object_found; try done.
    apply elem_of_get_queryset. split; [done|]. by left.
  - intros other Hstaff Hother. apply get_object_not_found.
    intros o [Hin' Hsee]%elem_of_get_queryset Hpk.
    rewrite (Huniq o Hin' Hpk) in Hsee.
    destruct Hsee as [Hsee|[_ Hsee]]; congruence.
Qed.

Lemma created_order_is_retrieved_witness :
  get_object Fixture.user 1 Fixture.booked
  = inr {| order_id := 1; created_at := 1000; order_user := 1 |} ∧
  get_object Fixture.admin 1 Fixture.booked
  = inr {| order_id := 1; created_at := 1000; order_user := 1 |} ∧
  get_object Reference.other_user 1 Fixture.booked = inl Http404.
Proof.
  destruct (created_order_is_retrieved 1000 Fixture.user Fixture.two_seats
              Fixture.store Fixture.booked
              {| order_id := 1; created_at := 1000; order_user := 1 |}
              (reachable_empty [Fixture.flight; Fixture.flight2]) eq_refl)
    as (Hown & Hstaff & Hother).
  split_and!.
  - by apply Hown.
  - by apply Hstaff.
  - apply Hother; [done | discriminate].
Defined.

(** ** Deleting an order *)

Lemma filter_all {A} (P : A -> Prop) `{!∀ x, Decision (P x)} (l : list A) :
  Forall P l -> filter P l = l.
Proof.
  induction 1 as [|x l Hx _ IH]; [done|].
  rewrite filter_cons_True by done. by f_equal.
Qed.

Lemma filter_none {A} (P : A -> Prop) `{!∀ x, Decision (P x)} (l : list A) :
  Forall (fun x => ¬ P x) l -> filter P l = [].
Proof.
  induction 1 as [|x l Hx _ IH]; [done|].
  by rewrite filter_cons_False by done.
Qed.

Lemma get_object_inr user pk s order :
  get_object user pk s = inr order ->
  order ∈ get_queryset user s ∧ order_id order = pk.
Proof.
  unfold get_object.
  destruct (filter _ _) as [|o' l] eqn:Hfilter; [discriminate|].
  intros [= ->].
  assert (order ∈ filter (fun o => order_id o = pk) (get_queryset user s)) as Hin.
  { rewrite Hfilter. apply elem_of_cons. by left. }
  apply list_elem_of_filter in Hin. tauto.
Qed.

(** X13. No request deletes an order that its sender may not see. A
    request to destroy from a sender who is not authenticated is
    refused by the permission class, before the action runs; a sender
    who is authenticated, has no staff rights and is not the user of
    any order under the key is answered 404. The store stays as it is
    in both cases. *)
Theorem foreign_order_is_not_deleted (user : User) (pk : Z) (s : Store) :
  (is_authenticated user = false ->
   IsAuthenticated user (OrderViewSet_destroy user pk) s = (NotPermitted, s)) ∧
  (is_authenticated user = true ->
   is_staff user = false ->
   (∀ o, o ∈ order_table s -> order_id o = pk -> order_user o ≠ user_id user) ->
   IsAuthenticated user (OrderViewSet_destroy user pk) s
   = (Handled (inl Http404), s)).
Proof.
  unfold IsAuthenticated. split.
  - by intros ->.
  - intros Hauth Hstaff Hforeign. rewrite Hauth.
    unfold OrderViewSet_destroy.
    rewrite get_object_not_found; [done|].
    intros o [Hin Hsee]%elem_of_get_queryset Hpk.
    destruct Hsee as [Hsee|[_ Hown]]; [congruence|].
    by apply (Hforeign o).
Qed.

Lemma foreign_order_is_not_deleted_witness :
  IsAuthenticated Reference.anonymous
    (OrderViewSet_destroy Reference.anonymous 1) Fixture.booked
  = (NotPermitted, Fixture.booked) ∧
  IsAuthenticated Reference.other_user
    (OrderViewSet_destroy Reference.other_user 1) Fixture.booked
  = (Handled (inl Http404), Fixture.booked).
Proof.
  destruct (foreign_order_is_not_deleted Reference.anonymous 1 Fixture.booked)
    as [Hrefused _].
  destruct (foreign_order_is_not_deleted Reference.other_user 1 Fixture.booked)
    as [_ Hnotfound].
  split.
  - by apply Hrefused.
  - apply Hnotfound; [reflexivity | reflexivity |].
    intros o Hin _. vm_compute in Hin.
    apply list_elem_of_singleton in Hin as ->. discriminate.
Defined.

(** X14. A destroy action that gets through has found an order under
    the key among those the requester may see; it removes the orders
    under the key and, by cascade, the tickets of that order, and
    nothing else: the other orders and tickets stay, in their order,
    and the flights are untouched. *)
Theorem destroy_takes_the_order_and_its_tickets
    (user : User) (pk : Z) (s s' : Store) :
  OrderViewSet_destroy user pk s = (inr tt, s') ->
  (∃ o, o ∈ get_queryset user s ∧ order_id o = pk) ∧
  (∀ o, o ∈ order_table s' ↔ o ∈ order_table s ∧ order_id o ≠ pk) ∧
  (∀ t, t ∈ ticket_table s' ↔ t ∈ ticket_table s ∧ ticket_order t ≠ pk) ∧
  order_table s' `sublist_of` order_table s ∧
  ticket_table s' `sublist_of` ticket_table s ∧
  flight_table s' = flight_table s.
Proof.
  unfold OrderViewSet_destroy.
  destruct (get_object user pk s) as [e|order] eqn:Hget; [discriminate|].
  apply get_object_inr in Hget as [Hin Hpk]. subst pk.
  unfold Order_delete. intros [= <-]. simpl. split_and!.
  - by exists order.
  - intros o. rewrite list_elem_of_filter. tauto.
  - intros t. rewrite list_elem_of_filter. tauto.
  - apply sublist_filter.
  - apply sublist_filter.
  - done.
Qed.

Lemma destroy_takes_the_order_and_its_tickets_witness :
  (∃ o, o ∈ get_queryset Fixture.user Fixture.booked ∧ order_id o = 1) ∧
  ticket_table (OrderViewSet_destroy Fixture.user 1 Fixture.booked).2
    `sublist_of` ticket_table Fixture.booked ∧
  flight_table (OrderViewSet_destroy Fixture.user 1 Fixture.booked).2
  = flight_table Fixture.booked.
Proof.
  destruct (destroy_takes_the_order_and_its_tickets Fixture.user 1
              Fixture.booked
              (OrderViewSet_destroy Fixture.user 1 Fixture.booked).2 eq_refl)
    as (Hfound & _ & _ & _ & Hsub & Hflights).
  by split_and!.
Defined.

Lemma for_each_create_counter order tickets_data s s' :
  for_each (create_ticket order) tickets_data s = (inr tt, s') ->
  next_ticket_id s' = next_ticket_id s + Z.of_nat (length tickets_data).
Proof.
  revert s. induction tickets_data as [|ticket_data rest IH]; intros s; simpl.
  - intros [= <-]. lia.
  - unfold db_bind.
    destruct (create_ticket order ticket_data s) as [[e0|[]] s0] eqn:Hc;
      [discriminate|].
    intros Hrest. apply create_ticket_inr in Hc.
    destruct Hc as (t & _ & _ & _ & _ & Hn & _).
    rewrite (IH _ Hrest), Hn. lia.
Qed.

Lemma OrderSerializer_create_inr_counter now user tickets_data s order s' :
  OrderSerializer_create now user {| data_tickets := Some tickets_data |} s
  = (inr order, s') ->
  next_ticket_id s' = next_ticket_id s + Z.of_nat (length tickets_data).
Proof.
  unfold OrderSerializer_create, transaction_atomic, db_bind,
    Order_objects_create. simpl.
  match goal with |- context [for_each ?b ?l ?s0] =>
    destruct (for_each b l s0) as [[e0|[]] s1] eqn:Hloop end;
    [discriminate|].
  intros [= <- <-]. by apply for_each_create_counter in Hloop.
Qed.

(** X15. Destroying undoes creating, up to the keys. In a store that
    can be reached and in which every ticket belongs to a stored order,
    the user who has just created an order, or a staff user, can
    destroy it, and the orders, the tickets and the flights are then
    what they were before the creation. The keys handed out stay
    spent: the key of the order, and one ticket key for every item of
    the ticket list. *)
Theorem destroy_undoes_create
    (now : Z) (user remover : User) (initial : OrderInput) (s s' : Store)
    (order : Order) :
  reachable s ->
  (∀ t, t ∈ ticket_table s ->
        ∃ o, o ∈ order_table s ∧ ticket_order t = order_id o) ->
  OrderViewSet_create now user initial s = (inr order, s') ->
  is_staff remover = true ∨
  (remover = user ∧ is_authenticated user = true) ->
  ∃ s'', OrderViewSet_destroy remover (order_id order) s' = (inr tt, s'') ∧
         order_table s'' = order_table s ∧
         ticket_table s'' = ticket_table s ∧
         flight_table s'' = flight_table s ∧
         next_order_id s'' = next_order_id s + 1 ∧
         next_ticket_id s''
         = next_ticket_id s
           + Z.of_nat (length (default [] (initial_tickets initial))).
Proof.
  intros Hreach%order_ids_fresh_reachable Hfk Hc Hmay.
  unfold OrderViewSet_create in Hc.
  destruct (OrderSerializer_run_validation s initial) as [e|value] eqn:Hv;
    [discriminate|].
  apply OrderSerializer_run_validation_inr in Hv as (tds0 & Hinit & -> & _).
  pose proof Hc as Hids. apply OrderSerializer_create_inr_ids in Hids
    as (Ho & Hn & Hid & Huser).
  pose proof (OrderSerializer_create_inr_counter _ _ _ _ _ _ Hc) as Hcounter.
  apply OrderSerializer_create_inr in Hc.
  destruct Hc as (tds & new & _ & _ & _ & Ht & Hf & Hall & _).
  pose proof (fresh_order_unique s s' order Hreach Ho Hid) as Huniq.
  assert (order ∈ order_table s') as Hin.
  { rewrite Ho. apply elem_of_app. right. by apply list_elem_of_singleton. }
  assert (get_object remover (order_id order) s' = inr order) as Hget.
  { apply get_object_found; try done.
    apply elem_of_get_queryset. split; [done|].
    destruct Hmay as [?|[-> ?]]; [by left | by right]. }
  unfold OrderViewSet_destroy. rewrite Hget. unfold Order_delete.
  eexists. split; [reflexivity|]. simpl.
  destruct Hreach as [_ Hbelow]. rewrite Forall_forall in Hbelow.
  split_and!; try done.
  - rewrite Ho, filter_app, filter_all, filter_none; [by rewrite app_nil_r | |].
    + apply Forall_singleton. tauto.
    + apply Forall_forall. intros o Hold. specialize (Hbelow _ Hold). lia.
  - rewrite Ht, filter_app, filter_all, filter_none; [by rewrite app_nil_r | |].
    + clear Ht. induction Hall as [|td t ? ? Hof _ IH]; constructor; [|done].
      destruct Hof as (_ & _ & _ & _ & _ & Horder). tauto.
    + apply Forall_forall. intros t Hold.
      destruct (Hfk t Hold) as (o & Hoin & ->).
      specialize (Hbelow _ Hoin). lia.
  - by rewrite Hinit.
Qed.

Lemma destroy_undoes_create_witness :
  ∃ s'', OrderViewSet_destroy Fixture.user 1 Fixture.booked = (inr tt, s'') ∧
         order_table s'' = order_table Fixture.store ∧
         ticket_table s'' = ticket_table Fixture.store ∧
         flight_table s'' = flight_table Fixture.store ∧
         next_order_id s'' = next_order_id Fixture.store + 1 ∧
         next_ticket_id s'' = next_ticket_id Fixture.store + 2.
Proof.
  apply (destroy_undoes_create 1000 Fixture.user Fixture.user Fixture.two_seats
           Fixture.store Fixture.booked
           {| order_id := 1; created_at := 1000; order_user := 1 |}
           (reachable_empty [Fixture.flight; Fixture.flight2])).
  - intros t Hin. by apply elem_of_nil in Hin.
  - reflexivity.
  - right. by split.
Defined.

(** ** One bad item stops the order *)

(** X16. One item that [TicketSerializer.validate] turns down stops the
    whole order: the create action answers with a validation error
    under [tickets] that has one entry per item, and stores nothing,
    the seats of the good items included. *)
Theorem one_bad_item_stops_the_order
    (now : Z) (user : User) (initial : OrderInput)
    (tickets_data : list TicketData) (s : Store)
    (ticket_data : TicketData) (e : exn) :
  initial_tickets initial = Some tickets_data ->
  ticket_data ∈ tickets_data ->
  TicketSerializer_validate s ticket_data = inl e ->
  ∃ errors,
    OrderViewSet_create now user initial s
    = (inl (ValidationError (Nested "tickets" (Items errors))), s) ∧
    length errors = length tickets_data.
Proof.
  intros Hinit Hin Hbad.
  destruct (run_children_errors s tickets_data)
    as (values & errors & Hrun & Hlen & Herr).
  exists errors. split; [|done].
  unfold OrderViewSet_create, OrderSerializer_run_validation,
    OrderSerializer_to_internal_value, run_field,
    ListSerializer_run_validation. simpl.
  rewrite Hinit. simpl. rewrite Hrun. simpl.
  by rewrite (Herr _ _ Hin Hbad).
Qed.

Lemma one_bad_item_stops_the_order_witness :
  ∃ errors,
    OrderViewSet_create 1000 Fixture.user
      (Fixture.payload [Fixture.ticket Fixture.flight 2 6 "first";
                        Fixture.ticket Fixture.flight 31 6 "economy"])
      Fixture.store
    = (inl (ValidationError (Nested "tickets" (Items errors))), Fixture.store) ∧
    length errors = 2%nat.
Proof.
  apply (one_bad_item_stops_the_order 1000 Fixture.user
           (Fixture.payload [Fixture.ticket Fixture.flight 2 6 "first";
                             Fixture.ticket Fixture.flight 31 6 "economy"])
           [Fixture.ticket Fixture.flight 2 6 "first";
            Fixture.ticket Fixture.flight 31 6 "economy"]
           Fixture.store
           (Fixture.ticket Fixture.flight 31 6 "economy")
           (ValidationError (NonField "Row number must be between 1 and 30."))).
  - reflexivity.
  - apply elem_of_cons. right. apply elem_of_cons. by left.
  - reflexivity.
Defined.
